(** * B2B Sheet Generator front end: job lifecycle, progress estimator and
      result presentation rules

    The development embeds the TypeScript sources of the front end:

    - [types/extraction.ts]             -> Module [Schema]
    - [components/ResultsSection.tsx]   -> Module [Results]
    - [components/ProcessingSection.tsx]-> Module [Processing]
    - [components/UploadSection.tsx]    -> Module [Upload]
    - [App.tsx]                         -> Module [App]
    - [api.ts]                          -> Module [Api]
    - [components/UploadSection.tsx], the file list -> Module [UploadForm]

    JavaScript numbers are modelled by exact rationals [Q] (with the three
    non-finite values added where the code can observe them).  The
    arithmetic of the result tables rounds every operation to the nearest
    double (Module [Float64]); the progress estimator is kept in exact
    arithmetic, which its order and bound properties do not depend on,
    and its updater is given a second time with rounding
    ([App.progressUpdater64]) for the number of callbacks it needs.
    React state is modelled by
    explicit state passing: every handler is a function from the state it
    closes over to the next state and the list of effects it issues. *)

From Stdlib Require Import ZArith NArith QArith Qround Qpower Qminmax Lqa Lia Sorted.
From Stdlib Require Import Bool List String Ascii DecimalString.
Import ListNotations.

Local Open Scope string_scope.

(* ===================================================================== *)
(** * JavaScript primitives used by the sources *)
(* ===================================================================== *)

Module JS.

(** A JavaScript number: NaN, plus or minus Infinity, or a finite value. *)
Inductive jsnum : Type :=
| NaN : jsnum
| Inf (negative : bool) : jsnum
| Fin (q : Q) : jsnum.

(** The values a [ConfidenceValue] may carry.  The declared type is
    [string | number | null]; the accessors also test for [undefined], so
    it is part of the model. *)
Inductive JSValue : Type :=
| VNull : JSValue
| VUndefined : JSValue
| VStr (s : string) : JSValue
| VNum (n : jsnum) : JSValue.

Definition isNaN (n : jsnum) : bool :=
  match n with NaN => true | _ => false end.

Definition Qltb (x y : Q) : bool := negb (Qle_bool y x).

Definition Qis_zero (q : Q) : bool := Qeq_bool q 0.

(** ToBoolean. *)
Definition truthy (x : JSValue) : bool :=
  match x with
  | VNull | VUndefined => false
  | VStr s => negb (String.eqb s "")
  | VNum NaN => false
  | VNum (Inf _) => true
  | VNum (Fin q) => negb (Qis_zero q)
  end.

(** [a || b]: the left operand when it is truthy, the right one otherwise. *)
Definition jsOr (a b : JSValue) : JSValue := if truthy a then a else b.

(** [Math.max] and [Math.min] on finite numbers. *)
Definition Math_max (a b : Q) : Q := if Qle_bool a b then b else a.
Definition Math_min (a b : Q) : Q := if Qle_bool a b then a else b.

(** ** Decimal digits *)

Definition digitChar (d : N) : ascii := ascii_of_N (48 + d).

Definition isDigit (c : ascii) : bool :=
  let n := N_of_ascii c in ((48 <=? n) && (n <=? 57))%N.

Definition digitValue (c : ascii) : N := N_of_ascii c - 48.

(** The [k] low-order decimal digits of [n], padded with zeros. *)
Fixpoint fixedDigits (k : nat) (n : N) : string :=
  match k with
  | O => ""
  | S k' => fixedDigits k' (n / 10) ++ String (digitChar (n mod 10)) ""
  end.

(** Decimal digits of a natural number, ["0"] for zero. *)
Definition natDigits (n : N) : string := NilZero.string_of_uint (N.to_uint n).

(** en-US grouping: a comma before every group of three digits counted from
    the right. *)
Fixpoint groupThousands (s : string) : string :=
  match s with
  | EmptyString => EmptyString
  | String c rest =>
      let l := String.length rest in
      String c (if (Nat.ltb 0 l && Nat.eqb (Nat.modulo l 3) 0)%bool
                then String "," (groupThousands rest)
                else groupThousands rest)
  end.

(** [|q| * 10^fd] rounded to the nearest integer, ties away from zero
    (the default rounding mode of Intl.NumberFormat). *)
Definition scaledRound (fd : nat) (q : Q) : N :=
  let a := Z.abs_N (Qnum q) in
  let b := Npos (Qden q) in
  ((2 * a * 10 ^ N.of_nat fd + b) / (2 * b))%N.

(** U+221E as UTF-8. *)
Definition infinitySign : string :=
  String (ascii_of_nat 226) (String (ascii_of_nat 136) (String (ascii_of_nat 158) "")).

(** [n.toLocaleString('en-US', { minimumFractionDigits: fd,
    maximumFractionDigits: fd })]. *)
Definition toLocaleString_enUS (fd : nat) (n : jsnum) : string :=
  match n with
  | NaN => "NaN"
  | Inf neg => (if neg then "-" else "") ++ infinitySign
  | Fin q =>
      let s := scaledRound fd q in
      let p := (10 ^ N.of_nat fd)%N in
      (if Qltb q 0 then "-" else "")
        ++ groupThousands (natDigits (s / p))
        ++ match fd with
           | O => ""
           | _ => "." ++ fixedDigits fd (s mod p)
           end
  end.

(** ** [String(x)] *)

(** Fractional digits of [r / d] (with [r < d]), until the remainder
    vanishes or the fuel runs out. *)
Fixpoint fracDigits (fuel : nat) (r d : N) : string :=
  match fuel with
  | O => ""
  | S fuel' =>
      if (r =? 0)%N then ""
      else String (digitChar (10 * r / d)) (fracDigits fuel' ((10 * r) mod d) d)
  end.

(** Number::toString for the values the server writes: the terminating
    decimal expansion of the number (up to twenty fractional digits);
    exponent notation for very large or very small magnitudes is not
    modelled. *)
Definition Number_toString (n : jsnum) : string :=
  match n with
  | NaN => "NaN"
  | Inf neg => (if neg then "-" else "") ++ "Infinity"
  | Fin q =>
      let a := Z.abs_N (Qnum q) in
      let b := Npos (Qden q) in
      let fr := fracDigits 20 (a mod b) b in
      (if Qltb q 0 then "-" else "")
        ++ natDigits (a / b)
        ++ (if String.eqb fr "" then "" else "." ++ fr)
  end.

Definition String_of (x : JSValue) : string :=
  match x with
  | VNull => "null"
  | VUndefined => "undefined"
  | VStr s => s
  | VNum n => Number_toString n
  end.

(** ** [parseFloat] *)

(** StrWhiteSpaceChar, restricted to the ASCII range. *)
Definition isWhiteSpace (c : ascii) : bool :=
  let n := N_of_ascii c in
  ((n =? 9) || (n =? 10) || (n =? 11) || (n =? 12) || (n =? 13) || (n =? 32))%N.

Fixpoint trimStart (s : string) : string :=
  match s with
  | String c rest => if isWhiteSpace c then trimStart rest else s
  | EmptyString => EmptyString
  end.

(** Reads a maximal run of digits: its value continued from [acc], how many
    digits were read, and the rest of the input. *)
Fixpoint readDigits (s : string) (acc : N) (cnt : nat) : N * nat * string :=
  match s with
  | String c rest =>
      if isDigit c then readDigits rest (10 * acc + digitValue c)%N (S cnt)
      else (acc, cnt, s)
  | EmptyString => (acc, cnt, s)
  end.

(** An optional ExponentPart; the exponent is [0] when the input has none
    (an "e" not followed by digits is not consumed). *)
Definition readExponent (s : string) : Z :=
  match s with
  | String c rest =>
      if (Ascii.eqb c "e" || Ascii.eqb c "E")%bool then
        let '(neg, rest') :=
          match rest with
          | String "+" r => (false, r)
          | String "-" r => (true, r)
          | _ => (false, rest)
          end in
        let '(e, cnt, _) := readDigits rest' 0%N 0%nat in
        match cnt with
        | O => 0%Z
        | _ => if neg then (- Z.of_N e)%Z else Z.of_N e
        end
      else 0%Z
  | EmptyString => 0%Z
  end.

Definition pow10 (e : Z) : Q :=
  match e with
  | Z0 => 1
  | Zpos p => inject_Z (10 ^ Zpos p)
  | Zneg p => 1 # (10 ^ p)
  end.

(** Finite doubles lie strictly below [2^1024 - 2^970]; a decimal literal at
    or beyond that bound reads as Infinity. *)
Definition doubleOverflow : Q := inject_Z (2 ^ 1024 - 2 ^ 970).

Definition clampDouble (neg : bool) (m : Q) : jsnum :=
  if Qle_bool doubleOverflow m then Inf neg
  else Fin (if neg then - m else m).

Definition startsWith (p s : string) : bool := String.prefix p s.

(** [parseFloat(s)]: the longest prefix of the trimmed input that is a
    StrDecimalLiteral, NaN when there is none. *)
Definition parseFloat (s : string) : jsnum :=
  let t := trimStart s in
  let '(neg, body) :=
    match t with
    | String "+" r => (false, r)
    | String "-" r => (true, r)
    | _ => (false, t)
    end in
  if startsWith "Infinity" body then Inf neg
  else
    let '(ip, icnt, rest) := readDigits body 0%N 0%nat in
    let '(mant, fcnt, rest') :=
      match rest with
      | String "." r => readDigits r ip 0%nat
      | _ => (ip, 0%nat, rest)
      end in
    match (icnt + fcnt)%nat with
    | O => NaN
    | _ =>
        let e := (readExponent rest' - Z.of_nat fcnt)%Z in
        clampDouble neg (inject_Z (Z.of_N mant) * pow10 e)
    end.

(** ** Shape of a formatted number *)

Fixpoint allChars (p : ascii -> bool) (s : string) : bool :=
  match s with
  | EmptyString => true
  | String c rest => p c && allChars p rest
  end.

Definition isDigitOrComma (c : ascii) : bool := isDigit c || Ascii.eqb c ",".

(** [s] is an optional minus sign, a non-empty integer part made of digits
    and grouping commas, a decimal point, and exactly [k] digits. *)
Definition hasDecimals (k : nat) (s : string) : Prop :=
  exists sign ip fp,
    s = sign ++ ip ++ "." ++ fp
    /\ (sign = "" \/ sign = "-")
    /\ ip <> ""
    /\ allChars isDigitOrComma ip = true
    /\ String.length fp = k
    /\ allChars isDigit fp = true.

End JS.

(* ===================================================================== *)
(** * Double-precision arithmetic *)
(* ===================================================================== *)

(** Finite doubles are the rationals [m * 2^k] with [|m| <= 2^53] and
    [k >= -1074]; an arithmetic operation of the language returns the
    exact result rounded to the nearest such value, ties to the one with
    an even [m], and an infinity from [2^1024] on.  Zero carries no sign
    here. *)
Module Float64.
Import JS.

Definition pow2 (k : Z) : Q := Qpower 2 k.

(** [floor (log2 x)] for a positive [x]. *)
Definition ilog2 (x : Q) : Z :=
  let e0 := (Z.log2 (Qnum x) - Z.log2 (Zpos (Qden x)))%Z in
  if Qle_bool (pow2 e0) x then e0 else (e0 - 1)%Z.

(** Nearest integer, ties to even. *)
Definition roundEven (y : Q) : Z :=
  let f := Qfloor y in
  let r := y - inject_Z f in
  if Qltb r (1 # 2) then f
  else if Qltb (1 # 2) r then (f + 1)%Z
  else if Z.even f then f else (f + 1)%Z.

(** The exponent of the unit in the last place of a positive [x]: 52 below
    its binary exponent, which is at least -1022 (subnormal numbers share
    the spacing [2^-1074]). *)
Definition quantum (x : Q) : Z := (Z.max (ilog2 x) (-1022) - 52)%Z.

Definition roundPos (x : Q) : Q :=
  let k := quantum x in
  inject_Z (roundEven (x * pow2 (- k))) * pow2 k.

(** The nearest double, before the overflow test. *)
Definition round64Q (x : Q) : Q :=
  if Qltb 0 x then roundPos x
  else if Qltb x 0 then - roundPos (- x)
  else 0.

(** The double an exact result is rounded to. *)
Definition round64 (x : Q) : jsnum :=
  let v := round64Q x in
  if Qle_bool (pow2 1024) v then Inf false
  else if Qle_bool v (- pow2 1024) then Inf true
  else Fin v.

(** [a + b] *)
Definition add64 (a b : jsnum) : jsnum :=
  match a, b with
  | NaN, _ | _, NaN => NaN
  | Fin x, Fin y => round64 (x + y)
  | Inf s, Inf s' => if Bool.eqb s s' then Inf s else NaN
  | Inf s, Fin _ | Fin _, Inf s => Inf s
  end.

(** [a * b] *)
Definition mul64 (a b : jsnum) : jsnum :=
  match a, b with
  | NaN, _ | _, NaN => NaN
  | Fin x, Fin y => round64 (x * y)
  | Inf s, Inf s' => Inf (xorb s s')
  | Inf s, Fin y | Fin y, Inf s =>
      if Qis_zero y then NaN else Inf (xorb s (Qltb y 0))
  end.

(** [a / b] *)
Definition div64 (a b : jsnum) : jsnum :=
  match a, b with
  | NaN, _ | _, NaN => NaN
  | Fin x, Fin y =>
      if Qis_zero y then (if Qis_zero x then NaN else Inf (Qltb x 0))
      else round64 (x / y)
  | Inf _, Inf _ => NaN
  | Inf s, Fin y => Inf (xorb s (Qltb y 0))
  | Fin _, Inf _ => Fin 0
  end.

(** [score >= lit] for a finite literal. *)
Definition geLiteral (score : jsnum) (lit : Q) : bool :=
  match score with
  | Fin x => Qle_bool lit x
  | Inf negative => negb negative
  | NaN => false
  end.

End Float64.

(* ===================================================================== *)
(** * The result schema ([types/extraction.ts]) *)
(* ===================================================================== *)

Module Schema.
Import JS.

Record ConfidenceValue : Type := mkCV {
  value : JSValue;
  confidence : Q
}.

Record LineItem : Type := {
  li_description : ConfidenceValue;
  hs_code_origin : ConfidenceValue;
  hs_code_destination : ConfidenceValue;
  li_quantity : ConfidenceValue;
  unit_price_usd : ConfidenceValue;
  total_price_usd : ConfidenceValue;
  unit_weight_kg : ConfidenceValue;
  igst_percent : ConfidenceValue
}.

Record BoxItem : Type := {
  bi_description : ConfidenceValue;
  bi_quantity : ConfidenceValue
}.

Record Address : Type := {
  name : ConfidenceValue;
  address : ConfidenceValue;
  city : ConfidenceValue;
  state : ConfidenceValue;
  zip_code : ConfidenceValue;
  country : ConfidenceValue;
  phone : ConfidenceValue;
  email : ConfidenceValue
}.

(** [destination_id] is tested for presence before it is read, and
    [receiver] is nullable. *)
Record Box : Type := {
  box_number : ConfidenceValue;
  length_cm : ConfidenceValue;
  width_cm : ConfidenceValue;
  height_cm : ConfidenceValue;
  gross_weight_kg : ConfidenceValue;
  net_weight_kg : ConfidenceValue;
  items : list BoxItem;
  destination_id : option ConfidenceValue;
  receiver : option Address
}.

Record InvoiceData : Type := {
  invoice_number : ConfidenceValue;
  invoice_date : ConfidenceValue;
  currency : ConfidenceValue;
  total_amount : ConfidenceValue;
  exporter : Address;
  consignee : Address;
  ship_to : Address;
  ior : Address;
  line_items : list LineItem
}.

Record Destination : Type := {
  dest_id : string;
  dest_name : ConfidenceValue;
  dest_address : Address
}.

(** [destinations] is read as [packing_list.destinations || []]. *)
Record PackingListData : Type := {
  total_boxes : ConfidenceValue;
  total_net_weight_kg : ConfidenceValue;
  total_gross_weight_kg : ConfidenceValue;
  boxes : list Box;
  destinations : option (list Destination)
}.

(** [warnings] and [errors] are read as [x || []] by the orchestrator. *)
Record ExtractionResult : Type := {
  er_job_id : string;
  er_status : string;
  overall_confidence : Q;
  invoice : InvoiceData;
  packing_list : PackingListData;
  warnings : option (list string);
  errors : option (list string)
}.

Record JobStatus : Type := {
  job_id : string;
  js_status : string;
  js_progress : Q;
  js_message : string;
  js_result : option ExtractionResult;
  multi_address_download : option string;
  simplified_download : option string
}.

Inductive OutputCurrency : Type := auto | USD | INR.

Record ExtractionOptions : Type := {
  output_currency : OutputCurrency;
  exchange_rate : option jsnum;
  sync_hs_codes : bool
}.

End Schema.

(* ===================================================================== *)
(** * Result presentation ([components/ResultsSection.tsx]) *)
(* ===================================================================== *)

Module Results.
Import JS Schema.

Inductive ChipColor : Type := success | warning | error.

(** The literals [0.9] and [0.7]: the doubles nearest to 9/10 and 7/10. *)
Definition lit09 : Q := Float64.round64Q (9 # 10).
Definition lit07 : Q := Float64.round64Q (7 # 10).

Definition getConfidenceColor (score : jsnum) : ChipColor :=
  if Float64.geLiteral score lit09 then success
  else if Float64.geLiteral score lit07 then warning
  else error.

(** [value === null || value === undefined || value === ''] *)
Definition isBlank (x : JSValue) : bool :=
  match x with
  | VNull | VUndefined => true
  | VStr s => String.eqb s ""
  | VNum _ => false
  end.

(** [typeof value === 'string' ? parseFloat(value) : value], for a value
    that passed the blank test. *)
Definition toNum (x : JSValue) : jsnum :=
  match x with
  | VStr s => parseFloat s
  | VNum n => n
  | VNull | VUndefined => NaN
  end.

Definition fmtCurrency (x : JSValue) : string :=
  if isBlank x then "-"
  else
    let num := toNum x in
    if isNaN num then "-"
    else "$" ++ toLocaleString_enUS 2 num.

Definition fmtWeight (x : JSValue) : string :=
  if isBlank x then "-"
  else
    let num := toNum x in
    if isNaN num then "-"
    else toLocaleString_enUS 1 num ++ " kg".

Definition v (cv : ConfidenceValue) : string :=
  if isBlank (value cv) then "-" else String_of (value cv).

Definition getReceiverAddress (result : ExtractionResult) : Address :=
  let shipTo := ship_to (invoice result) in
  let hasData :=
    jsOr (jsOr (jsOr (value (name shipTo)) (value (address shipTo)))
               (value (city shipTo)))
         (value (country shipTo)) in
  if truthy hasData then shipTo else consignee (invoice result).



(** [confs.reduce((s, c) => s + c, 0) / confs.length], every addition and
    the division rounded to a double. *)
Definition average (confs : list Q) : jsnum :=
  Float64.div64
    (fold_left (fun s c => Float64.add64 s (Fin c)) confs (Fin 0))
    (Fin (inject_Z (Z.of_nat (List.length confs)))).

Definition lineItemConfs (item : LineItem) : list Q :=
  [ confidence (li_description item);
    confidence (hs_code_origin item);
    confidence (li_quantity item);
    confidence (unit_price_usd item);
    confidence (total_price_usd item);
    confidence (unit_weight_kg item);
    confidence (igst_percent item) ].

Definition boxConfs (box : Box) : list Q :=
  [ confidence (box_number box);
    confidence (length_cm box);
    confidence (width_cm box);
    confidence (height_cm box);
    confidence (gross_weight_kg box) ].

(** [x.toFixed(0)]: the nearest integer, ties away from zero; from 10^21
    on the method falls back to [String(x)]. *)
Definition toFixed0 (x : jsnum) : string :=
  match x with
  | NaN => "NaN"
  | Inf negative => (if negative then "-" else "") ++ "Infinity"
  | Fin y =>
      if Qle_bool (inject_Z (10 ^ 21)) y || Qle_bool y (- inject_Z (10 ^ 21))
      then Number_toString (Fin y)
      else (if Qltb y 0 then "-" else "") ++ natDigits (scaledRound 0 y)
  end.

(** The chip label [`${(avg * 100).toFixed(0)}%`]; the product is a double. *)
Definition percentLabelOf (score : jsnum) : string :=
  toFixed0 (Float64.mul64 score (Fin 100)) ++ "%".

Definition percentLabel (score : Q) : string := percentLabelOf (Fin score).

Record ConfChip : Type := { chip_label : string; chip_color : ChipColor }.

(** The chip of a table row, from the computed average. *)
Definition rowChip (score : jsnum) : ConfChip :=
  {| chip_label := percentLabelOf score; chip_color := getConfidenceColor score |}.

Definition confChip (score : Q) : ConfChip := rowChip (Fin score).

(** ** The rendered tree, reduced to its data *)


Definition natLabel (n : nat) : string := natDigits (N.of_nat n).







Record LineItemRow : Type := {
  lr_index : nat; lr_description : string; lr_hs_code : string; lr_qty : string;
  lr_unit_price : string; lr_total : string; lr_weight : string; lr_igst : string;
  lr_conf : ConfChip
}.

Definition lineItemRow (idx : nat) (item : LineItem) : LineItemRow :=
  let avg := average (lineItemConfs item) in
  {| lr_index := idx + 1;
     lr_description := v (li_description item);
     lr_hs_code := v (hs_code_origin item);
     lr_qty := v (li_quantity item);
     lr_unit_price := fmtCurrency (value (unit_price_usd item));
     lr_total := fmtCurrency (value (total_price_usd item));
     lr_weight := v (unit_weight_kg item);
     lr_igst := v (igst_percent item);
     lr_conf := rowChip avg |}.

(** Multiplication sign U+00D7 as UTF-8, between spaces. *)
Definition timesSep : string :=
  " " ++ String (ascii_of_nat 195) (String (ascii_of_nat 151) "") ++ " ".

Definition itemsSummary (box : Box) : string :=
  String.concat ", "
    (map (fun bi => v (bi_description bi) ++ timesSep ++ v (bi_quantity bi)) (items box)).

(** The destination cell exists only in multi-destination mode; it shows
    the box's destination id, or the placeholder when the box has none. *)
Record BoxRow : Type := {
  br_box_number : string; br_dest : option string;
  br_length : string; br_width : string; br_height : string; br_weight : string;
  br_items : string; br_conf : ConfChip
}.

Definition boxRow (multi : bool) (box : Box) : BoxRow :=
  let avg := average (boxConfs box) in
  {| br_box_number := v (box_number box);
     br_dest := if multi
                then Some (match destination_id box with
                           | Some d => v d
                           | None => "-"
                           end)
                else None;
     br_length := v (length_cm box);
     br_width := v (width_cm box);
     br_height := v (height_cm box);
     br_weight := v (gross_weight_kg box);
     br_items := (let s := itemsSummary box in if String.eqb s "" then "-" else s);
     br_conf := rowChip avg |}.


Fixpoint mapi {A B : Type} (f : nat -> A -> B) (i : nat) (l : list A) : list B :=
  match l with
  | [] => []
  | x :: l' => f i x :: mapi f (S i) l'
  end.

Definition lineItemRows (result : ExtractionResult) : list LineItemRow :=
  mapi lineItemRow 0 (line_items (invoice result)).


(** The four fields [getReceiverAddress] looks at, in the order it reads
    them. *)
Definition keyValues (a : Address) : list JSValue :=
  [ value (name a); value (address a); value (city a); value (country a) ].

End Results.

(* ===================================================================== *)
(** * The processing screen ([components/ProcessingSection.tsx]) *)
(* ===================================================================== *)

Module Processing.
Import JS.

(** [onRetry] is an optional callback; only its presence matters here. *)
Record Props : Type := {
  progress : Q;
  message : string;
  error : option string;
  onRetry : bool
}.

Definition steps : list (string * Q) :=
  [ ("Upload", 10); ("Extract", 30); ("Analyze", 55); ("Generate", 85) ].

(** [steps.reduce((acc, step, idx) => (progress >= step.threshold ? idx : acc), 0)] *)
Fixpoint activeStepFrom (progress : Q) (l : list (string * Q)) (idx acc : nat) : nat :=
  match l with
  | [] => acc
  | step :: l' =>
      activeStepFrom progress l' (S idx)
        (if Qle_bool (snd step) progress then idx else acc)
  end.

Definition activeStep (progress : Q) : nat := activeStepFrom progress steps 0 0.

(** Truthiness of [error]: null, undefined and the empty string are falsy. *)
Definition errorShown (e : option string) : bool :=
  match e with
  | Some s => negb (String.eqb s "")
  | None => false
  end.

Definition intDigits (z : Z) : string :=
  (if (z <? 0)%Z then "-" else "") ++ natDigits (Z.abs_N z).

(** [Math.round]: nearest integer, ties towards plus infinity. *)
Definition Math_round (x : Q) : Z := Qfloor (x + (1 # 2)).

(** What the component puts on screen. *)
Record Screen : Type := {
  stepIndicators : option nat;     (* [!error &&]: the active step *)
  barValue : Q;
  percentText : string;
  statusText : string;
  errorAlert : option string;      (* [error &&]: the alert text *)
  retryButton : bool               (* [error && onRetry &&]: "Try Again" *)
}.

Definition ProcessingSection (p : Props) : Screen :=
  {| stepIndicators := if errorShown (error p) then None else Some (activeStep (progress p));
     barValue := progress p;
     percentText := intDigits (Math_round (progress p)) ++ "%";
     statusText := message p;
     errorAlert := if errorShown (error p) then error p else None;
     retryButton := errorShown (error p) && onRetry p |}.

End Processing.

(* ===================================================================== *)
(** * Export options ([components/UploadSection.tsx]) *)
(* ===================================================================== *)

Module Upload.
Import JS Schema.

Definition DEFAULT_OPTIONS : ExtractionOptions :=
  {| output_currency := auto; exchange_rate := None; sync_hs_codes := true |}.

Definition isAuto (c : OutputCurrency) : bool :=
  match c with auto => true | _ => false end.

(** The [onChange] of the currency select. *)
Definition onCurrencyChange (target_value : OutputCurrency) (prev : ExtractionOptions)
  : ExtractionOptions :=
  {| output_currency := target_value;
     exchange_rate := if isAuto target_value then None else exchange_rate prev;
     sync_hs_codes := sync_hs_codes prev |}.

(** The [onChange] of the exchange-rate text field. *)
Definition onExchangeRateChange (target_value : string) (prev : ExtractionOptions)
  : ExtractionOptions :=
  {| output_currency := output_currency prev;
     exchange_rate := if negb (String.eqb target_value "")
                      then Some (parseFloat target_value) else None;
     sync_hs_codes := sync_hs_codes prev |}.

(** The [onChange] of the HS-code switch. *)
Definition onSyncChange (checked : bool) (prev : ExtractionOptions) : ExtractionOptions :=
  {| output_currency := output_currency prev;
     exchange_rate := exchange_rate prev;
     sync_hs_codes := checked |}.

(** The exchange-rate field sits in a [Collapse] that is open only when
    this holds. *)
Definition showExchangeRate (options : ExtractionOptions) : bool :=
  negb (isAuto (output_currency options)).

Inductive OptionsEdit : Type :=
| CurrencyChange (target_value : OutputCurrency)
| ExchangeRateChange (target_value : string)
| SyncChange (checked : bool).

Definition applyEdit (e : OptionsEdit) (prev : ExtractionOptions) : ExtractionOptions :=
  match e with
  | CurrencyChange c => onCurrencyChange c prev
  | ExchangeRateChange t => onExchangeRateChange t prev
  | SyncChange b => onSyncChange b prev
  end.

(** The edits the form offers in a given state: the exchange-rate field can
    be typed into only while it is shown. *)
Definition offered (options : ExtractionOptions) (e : OptionsEdit) : bool :=
  match e with
  | ExchangeRateChange _ => showExchangeRate options
  | _ => true
  end.

(** [exchange_rate] is null whenever [output_currency] is auto. *)
Definition rateClearedOnAuto (options : ExtractionOptions) : Prop :=
  output_currency options = auto -> exchange_rate options = None.

(** States reachable from the defaults through edits the form offers. *)
Inductive reachable : ExtractionOptions -> Prop :=
| reach_default : reachable DEFAULT_OPTIONS
| reach_edit : forall o e,
    reachable o -> offered o e = true -> reachable (applyEdit e o).

End Upload.

(* ===================================================================== *)
(** * The job orchestrator and the progress estimator ([App.tsx]) *)
(* ===================================================================== *)

Module App.
Import JS Schema.

Inductive ViewState : Type := upload | processing | results.

Record File : Type := { file_name : string; file_size : N; file_type : string }.

Inductive Severity : Type := sev_error | sev_warning | sev_success.

Record Toast : Type := { open : bool; toast_message : string; severity : Severity }.

(** The component state.  [progressIntervalRef] holds the start time of the
    live interval timer, if any; [pending] counts the [extractDocuments]
    promises that have not settled yet. *)
Record State : Type := {
  view : ViewState;
  files : list File;
  lastOptions : option ExtractionOptions;
  progress : Q;
  progressMessage : string;
  error : option string;
  result : option ExtractionResult;
  jobId : string;
  toast : Toast;
  progressIntervalRef : option Z;
  pending : nat
}.

Definition initialState : State :=
  {| view := upload; files := []; lastOptions := None; progress := 0;
     progressMessage := ""; error := None; result := None; jobId := "";
     toast := {| open := false; toast_message := ""; severity := sev_error |};
     progressIntervalRef := None; pending := 0 |}.

(** ** Progress estimator *)

Record ProgressStep : Type := { target : Q; message : string; delay : Z }.

Definition step0 : ProgressStep :=
  {| target := 10; message := "Uploading files..."; delay := 0 |}.

Definition steps : list ProgressStep :=
  [ step0;
    {| target := 30; message := "Extracting text from PDFs..."; delay := 1500 |};
    {| target := 55; message := "Analyzing invoice with AI..."; delay := 4000 |};
    {| target := 70; message := "Extracting packing list data..."; delay := 7000 |};
    {| target := 85; message := "Generating Excel sheets..."; delay := 12000 |} ].

(** [let currentStep = steps[0];
     for (const step of steps) if (elapsed >= step.delay) currentStep = step;] *)
Definition currentStepAt (elapsed : Z) : ProgressStep :=
  fold_left (fun currentStep step =>
               if (delay step <=? elapsed)%Z then step else currentStep)
            steps step0.

(** The updater handed to [setProgress] on every tick. *)
Definition progressUpdater (currentStep : ProgressStep) (prev : Q) : Q :=
  if Qltb prev (target currentStep) then
    let increment := Math_max (3 # 10) ((target currentStep - prev) * (6 # 100)) in
    Math_min (target currentStep) (prev + increment)
  else prev.

(** The same updater as the engine evaluates it: the subtraction, the
    product and the sum are each rounded to a double, and [0.3] and [0.06]
    are the doubles nearest to those decimals.  Below a target of the table
    no operation comes near the overflow threshold, so the rounding is the
    finite one. *)
Definition lit03 : Q := Float64.round64Q (3 # 10).
Definition lit006 : Q := Float64.round64Q (6 # 100).

Definition progressUpdater64 (currentStep : ProgressStep) (prev : Q) : Q :=
  if Qltb prev (target currentStep) then
    let increment :=
      Math_max lit03
               (Float64.round64Q (Float64.round64Q (target currentStep - prev) * lit006)) in
    Math_min (target currentStep) (Float64.round64Q (prev + increment))
  else prev.

(** One tick of the interval callback, [elapsed] milliseconds after the
    start. *)
Definition tick (elapsed : Z) (prev : Q) : Q :=
  progressUpdater (currentStepAt elapsed) prev.

(** The values emitted by a run that starts at [p] and ticks at the given
    elapsed times. *)
Fixpoint emitted (p : Q) (elapsed : list Z) : list Q :=
  match elapsed with
  | [] => []
  | e :: rest => let p' := tick e p in p' :: emitted p' rest
  end.

(** ** Effects and events *)

Inductive DownloadType : Type := multi | simplified | b2b_shipment | result_json.

Definition downloadTypeName (t : DownloadType) : string :=
  match t with
  | multi => "multi"
  | simplified => "simplified"
  | b2b_shipment => "b2b_shipment"
  | result_json => "result"
  end.

Definition getDownloadUrl (jobId : string) (t : DownloadType) : string :=
  "/api/download/" ++ jobId ++ "/" ++ downloadTypeName t.

Inductive Effect : Type :=
| ExtractDocuments (files : list File) (options : option ExtractionOptions)
| SetTimeoutShowResults (ms : Z)
| WindowOpen (url : string).

(** What a rejected promise carries: an [Error] with its message, or
    anything else. *)
Inductive Thrown : Type :=
| ThrownError (message : string)
| ThrownOther.

Inductive Settled : Type :=
| Fulfilled (jobStatus : JobStatus)
| Rejected (err : Thrown).

Inductive Event : Type :=
| Process (selectedFiles : list File) (options : option ExtractionOptions) (now : Z)
| IntervalTick (now : Z)
| ExtractSettled (outcome : Settled)
| Retry (now : Z)
| Reset
| ShowResultsTimeout
| ToastClose
| Download (t : DownloadType).

(** ** Handlers *)

Definition clearProgressInterval (s : State) : State :=
  {| view := view s; files := files s; lastOptions := lastOptions s;
     progress := progress s; progressMessage := progressMessage s;
     error := error s; result := result s; jobId := jobId s; toast := toast s;
     progressIntervalRef := None; pending := pending s |}.

Definition startProgressSimulation (now : Z) (s : State) : State :=
  let s := clearProgressInterval s in
  {| view := view s; files := files s; lastOptions := lastOptions s;
     progress := progress s; progressMessage := progressMessage s;
     error := error s; result := result s; jobId := jobId s; toast := toast s;
     progressIntervalRef := Some now; pending := pending s |}.

(** The interval callback. *)
Definition onInterval (now : Z) (s : State) : State :=
  match progressIntervalRef s with
  | None => s
  | Some startTime =>
      let elapsed := (now - startTime)%Z in
      let currentStep := currentStepAt elapsed in
      {| view := view s; files := files s; lastOptions := lastOptions s;
         progress := progressUpdater currentStep (progress s);
         progressMessage := message currentStep;
         error := error s; result := result s; jobId := jobId s; toast := toast s;
         progressIntervalRef := progressIntervalRef s; pending := pending s |}
  end.

(** [handleProcess] up to its [await]. *)
Definition handleProcess (selectedFiles : list File) (options : option ExtractionOptions)
    (now : Z) (s : State) : State * list Effect :=
  let s1 :=
    {| view := processing; files := selectedFiles; lastOptions := options;
       progress := 0; progressMessage := progressMessage s;
       error := None; result := None; jobId := ""; toast := toast s;
       progressIntervalRef := progressIntervalRef s; pending := S (pending s) |} in
  (startProgressSimulation now s1, [ExtractDocuments selectedFiles options]).

Definition orEmpty (l : option (list string)) : list string :=
  match l with Some x => x | None => [] end.

(** [extractionResult?.status === 'failed'] *)
Definition isFailed (r : option ExtractionResult) : bool :=
  match r with
  | Some er => String.eqb (er_status er) "failed"
  | None => false
  end.

Definition failureMessage (er : ExtractionResult) : string :=
  let errorMsgs := (orEmpty (errors er) ++ orEmpty (warnings er))%list in
  if Nat.ltb 0 (List.length errorMsgs)
  then String.concat " | " errorMsgs
  else "Extraction failed. Please try again.".

(** [extractionResult?.warnings && extractionResult.warnings.length > 0] *)
Definition warningToast (r : option ExtractionResult) (t : Toast) : Toast :=
  match r with
  | Some er =>
      match warnings er with
      | Some ws =>
          if Nat.ltb 0 (List.length ws)
          then {| open := true; toast_message := String.concat " | " ws;
                  severity := sev_warning |}
          else t
      | None => t
      end
  | None => t
  end.

Definition failWith (msg : string) (s : State) : State :=
  {| view := view s; files := files s; lastOptions := lastOptions s;
     progress := progress s; progressMessage := "Processing failed.";
     error := Some msg; result := result s; jobId := jobId s;
     toast := {| open := true; toast_message := msg; severity := sev_error |};
     progressIntervalRef := progressIntervalRef s; pending := pending s |}.

(** The state written on the success path. *)
Definition complete (jobStatus : JobStatus) (s : State) : State :=
  let extractionResult := js_result jobStatus in
  {| view := view s; files := files s; lastOptions := lastOptions s;
     progress := 100; progressMessage := "Done!";
     error := error s; result := extractionResult; jobId := job_id jobStatus;
     toast := warningToast extractionResult (toast s);
     progressIntervalRef := progressIntervalRef s; pending := pending s |}.

(** [handleProcess] after its [await], in the [try] block. *)
Definition onFulfilled (jobStatus : JobStatus) (s : State) : State * list Effect :=
  let s := clearProgressInterval s in
  match js_result jobStatus with
  | Some er =>
      if String.eqb (er_status er) "failed"
      then (failWith (failureMessage er) s, [])
      else (complete jobStatus s, [SetTimeoutShowResults 500])
  | None => (complete jobStatus s, [SetTimeoutShowResults 500])
  end.

(** The [catch] block. *)
Definition onRejected (err : Thrown) (s : State) : State * list Effect :=
  let s := clearProgressInterval s in
  let message :=
    match err with
    | ThrownError m => m
    | ThrownOther => "An unexpected error occurred."
    end in
  (failWith message s, []).

Definition settle (s : State) : State :=
  {| view := view s; files := files s; lastOptions := lastOptions s;
     progress := progress s; progressMessage := progressMessage s;
     error := error s; result := result s; jobId := jobId s; toast := toast s;
     progressIntervalRef := progressIntervalRef s; pending := Nat.pred (pending s) |}.

Definition handleRetry (now : Z) (s : State) : State * list Effect :=
  if Nat.ltb 0 (List.length (files s))
  then handleProcess (files s) (lastOptions s) now s
  else
    ({| view := upload; files := files s; lastOptions := lastOptions s;
        progress := 0; progressMessage := "";
        error := None; result := result s; jobId := jobId s; toast := toast s;
        progressIntervalRef := progressIntervalRef s; pending := pending s |}, []).

Definition handleReset (s : State) : State :=
  let s := clearProgressInterval s in
  {| view := upload; files := []; lastOptions := None;
     progress := 0; progressMessage := "";
     error := None; result := None; jobId := ""; toast := toast s;
     progressIntervalRef := progressIntervalRef s; pending := pending s |}.

Definition handleDownload (t : DownloadType) (s : State) : list Effect :=
  if String.eqb (jobId s) "" then [] else [WindowOpen (getDownloadUrl (jobId s) t)].

Definition showResults (s : State) : State :=
  {| view := results; files := files s; lastOptions := lastOptions s;
     progress := progress s; progressMessage := progressMessage s;
     error := error s; result := result s; jobId := jobId s; toast := toast s;
     progressIntervalRef := progressIntervalRef s; pending := pending s |}.

Definition closeToast (s : State) : State :=
  {| view := view s; files := files s; lastOptions := lastOptions s;
     progress := progress s; progressMessage := progressMessage s;
     error := error s; result := result s; jobId := jobId s;
     toast := {| open := false; toast_message := toast_message (toast s);
                 severity := severity (toast s) |};
     progressIntervalRef := progressIntervalRef s; pending := pending s |}.

(** One turn of the event loop.  A settlement is delivered only while a
    call is outstanding. *)
Definition step (s : State) (e : Event) : State * list Effect :=
  match e with
  | Process selectedFiles options now => handleProcess selectedFiles options now s
  | IntervalTick now => (onInterval now s, [])
  | ExtractSettled outcome =>
      match pending s with
      | O => (s, [])
      | S _ =>
          match outcome with
          | Fulfilled jobStatus => onFulfilled jobStatus (settle s)
          | Rejected err => onRejected err (settle s)
          end
      end
  | Retry now => handleRetry now s
  | Reset => (handleReset s, [])
  | ShowResultsTimeout => (showResults s, [])
  | ToastClose => (closeToast s, [])
  | Download t => (s, handleDownload t s)
  end.

(** Runs a sequence of events, collecting the effects in order. *)
Fixpoint run (s : State) (es : list Event) : State * list Effect :=
  match es with
  | [] => (s, [])
  | e :: es' =>
      let '(s1, fx1) := step s e in
      let '(s2, fx2) := run s1 es' in
      (s2, (fx1 ++ fx2)%list)
  end.

(** The progress values shown after each of a sequence of timer callbacks. *)
Fixpoint progressTrace (s : State) (nows : list Z) : list Q :=
  match nows with
  | [] => []
  | now :: rest =>
      let s' := onInterval now s in
      progress s' :: progressTrace s' rest
  end.

(** ** What the component renders in its main area *)

Inductive MainArea : Type :=
| UploadScreen
| ProcessingScreen (screen : Processing.Screen)
| ResultsScreen (result : ExtractionResult) (jobId : string)
| NothingRendered
| ResultsSectionThrows.

Definition processingProps (s : State) : Processing.Props :=
  {| Processing.progress := progress s;
     Processing.message := progressMessage s;
     Processing.error := error s;
     Processing.onRetry := true |}.

Definition render (s : State) : MainArea :=
  match view s with
  | upload => UploadScreen
  | processing => ProcessingScreen (Processing.ProcessingSection (processingProps s))
  | results =>
      match result s with
      | Some r =>
          (* [result.warnings.length] is read without a guard *)
          match warnings r with
          | Some _ => ResultsScreen r (jobId s)
          | None => ResultsSectionThrows
          end
      | None => NothingRendered
      end
  end.

(** The error sub-state as the user meets it: the processing screen with
    the error alert and the "Try Again" button. *)
Definition retryOffered (s : State) : bool :=
  match render s with
  | ProcessingScreen scr =>
      match Processing.errorAlert scr with
      | Some _ => Processing.retryButton scr
      | None => false
      end
  | _ => false
  end.

(** Events that are neither a new submission nor a reset. *)
Definition keepsSubmission (e : Event) : bool :=
  match e with
  | Process _ _ _ | Reset => false
  | _ => true
  end.

(** Follows the specification's wording, not the code: the job-scoped state
    (stored files, options, progress, job id and result) is cleared, as
    [handleReset] leaves it. *)
Definition spec_jobScopedCleared (s : State) : Prop :=
  files s = [] /\ lastOptions s = None /\ progress s == 0
  /\ jobId s = "" /\ result s = None.

(** [err instanceof Error ? err.message : 'An unexpected error occurred.'] *)
Definition thrownMessage (err : Thrown) : string :=
  match err with
  | ThrownError m => m
  | ThrownOther => "An unexpected error occurred."
  end.

End App.

(* ===================================================================== *)
(** * The extraction client ([api.ts]) *)
(* ===================================================================== *)

Module Api.
Import JS Schema.

(** A multipart part is a file or a text value. *)
Inductive FormValue : Type :=
| FormFile (f : App.File)
| FormText (s : string).

(** [FormData]: the appended entries, in order. *)
Definition FormData : Type := list (string * FormValue).

Definition append (fd : FormData) (name : string) (x : FormValue) : FormData :=
  (fd ++ [(name, x)])%list.

(** [FormData.getAll(name)] *)
Definition getAll (name : string) (fd : FormData) : list FormValue :=
  map snd (filter (fun entry => String.eqb (fst entry) name) fd).

(** [FormData.has(name)] *)
Definition has (name : string) (fd : FormData) : bool :=
  existsb (fun entry => String.eqb (fst entry) name) fd.

Definition currencyText (c : OutputCurrency) : string :=
  match c with auto => "auto" | USD => "USD" | INR => "INR" end.

(** [String(b)] for a boolean. *)
Definition String_of_bool (b : bool) : string := if b then "true" else "false".

(** The body built by [extractDocuments]. *)
Definition buildFormData (files : list App.File) (options : option ExtractionOptions)
  : FormData :=
  let formData := fold_left (fun fd file => append fd "files" (FormFile file)) files [] in
  match options with
  | Some o =>
      let fd1 := append formData "output_currency"
                   (FormText (currencyText (output_currency o))) in
      let fd2 := match exchange_rate o with
                 | Some r => append fd1 "exchange_rate" (FormText (Number_toString r))
                 | None => fd1
                 end in
      append fd2 "sync_hs_codes" (FormText (String_of_bool (sync_hs_codes o)))
  | None => formData
  end.

Record PostRequest : Type := {
  url : string;
  body : FormData;
  contentType : string;
  timeout : Z
}.

(** The request [extractDocuments] posts. *)
Definition extractDocuments (files : list App.File) (options : option ExtractionOptions)
  : PostRequest :=
  {| url := "/api/extract";
     body := buildFormData files options;
     contentType := "multipart/form-data";
     timeout := 180000 |}.

(** The address [getJobStatus] reads. *)
Definition getJobStatusUrl (jobId : string) : string := "/api/jobs/" ++ jobId.

(** The requests behind the effects of the orchestrator. *)
Definition requestsOf (fx : list App.Effect) : list PostRequest :=
  flat_map (fun e => match e with
                     | App.ExtractDocuments files options => [extractDocuments files options]
                     | _ => []
                     end) fx.

End Api.

(* ===================================================================== *)
(** * File selection ([components/UploadSection.tsx]) *)
(* ===================================================================== *)

Module UploadForm.
Import JS Schema.

Record FileWithId : Type := { file : App.File; id : string }.

Definition MAX_FILE_SIZE : N := 20 * 1024 * 1024.

Definition ALLOWED_FILE_TYPE : string := "application/pdf".

(** The test a file passes to be kept. *)
Definition accepted (f : App.File) : bool :=
  String.eqb (App.file_type f) ALLOWED_FILE_TYPE
  && negb (MAX_FILE_SIZE <? App.file_size f)%N.

(** The files [validateFiles] reports instead. *)
Definition rejected (f : App.File) : bool := negb (accepted f).

Record State : Type := {
  files : list FileWithId;
  dragActive : bool;
  validationErrors : list string;
  options : ExtractionOptions;
  showSettings : bool
}.

Definition initialState : State :=
  {| files := []; dragActive := false; validationErrors := [];
     options := Upload.DEFAULT_OPTIONS; showSettings := false |}.

(** A batch of files arrives together with the texts that
    [`${Date.now()}-${Math.random()}`] will produce for each position of
    the batch while it is validated. *)
Inductive Event : Type :=
| DragEnter
| DragLeave
| DragOver
| Drop (droppedFiles : list App.File) (stamp : nat -> string)
| FileInputChange (selectedFiles : list App.File) (stamp : nat -> string)
| RemoveFile (id : string)
| ClearAll
| CloseErrors
| ToggleSettings
| EditOptions (e : Upload.OptionsEdit)
| ProcessFiles.

Definition setDragActive (b : bool) (s : State) : State :=
  {| files := files s; dragActive := b; validationErrors := validationErrors s;
     options := options s; showSettings := showSettings s |}.

Definition handleRemoveFile (removed : string) (s : State) : State :=
  {| files := filter (fun f => negb (String.eqb (id f) removed)) (files s);
     dragActive := dragActive s; validationErrors := validationErrors s;
     options := options s; showSettings := showSettings s |}.

(** What [handleProcessFiles] hands to [onFilesSelected]. *)
Definition handleProcessFiles (s : State) : list App.File * ExtractionOptions :=
  (map file (files s), options s).

Section Form.

(** [formatFileSize] computes with [Math.log] on doubles; only its result
    is used, as a piece of the message for an oversized file. *)
Variable formatFileSize : N -> string.

(** The [forEach] of [validateFiles], from position [i] on: the files kept
    and the messages for the others, both in input order. *)
Fixpoint validateFrom (stamp : nat -> string) (i : nat) (filesToValidate : list App.File)
  : list FileWithId * list string :=
  match filesToValidate with
  | [] => ([], [])
  | f :: rest =>
      let '(validFiles, errors) := validateFrom stamp (S i) rest in
      if negb (String.eqb (App.file_type f) ALLOWED_FILE_TYPE) then
        (validFiles, (App.file_name f ++ " - Only PDF files are accepted.") :: errors)
      else if (MAX_FILE_SIZE <? App.file_size f)%N then
        (validFiles,
         (App.file_name f ++ " - Exceeds 20 MB limit ("
            ++ formatFileSize (App.file_size f) ++ ")") :: errors)
      else
        ({| file := f; id := App.file_name f ++ "-" ++ stamp i |} :: validFiles, errors)
  end.

(** [validateFiles]: the files kept, and the validation errors to show
    ([current] when there is nothing to report). *)
Definition validateFiles (stamp : nat -> string) (filesToValidate : list App.File)
    (current : list string) : list FileWithId * list string :=
  let '(validFiles, errors) := validateFrom stamp 0 filesToValidate in
  (validFiles, if Nat.ltb 0 (List.length errors) then errors else current).

(** [setValidationErrors([])], [validateFiles], then the append to the
    stored files. *)
Definition addFiles (batch : list App.File) (stamp : nat -> string) (s : State) : State :=
  let '(validatedFiles, errs) := validateFiles stamp batch [] in
  {| files := (files s ++ validatedFiles)%list; dragActive := dragActive s;
     validationErrors := errs; options := options s; showSettings := showSettings s |}.

Definition handleDrop (droppedFiles : list App.File) (stamp : nat -> string) (s : State)
  : State :=
  addFiles droppedFiles stamp (setDragActive false s).

Definition handleFileInputChange (selectedFiles : list App.File) (stamp : nat -> string)
    (s : State) : State :=
  addFiles selectedFiles stamp s.

(** One event: the next state and the call of [onFilesSelected], if any. *)
Definition step (s : State) (e : Event)
  : State * option (list App.File * ExtractionOptions) :=
  match e with
  | DragEnter => (setDragActive true s, None)
  | DragLeave => (setDragActive false s, None)
  | DragOver => (setDragActive true s, None)
  | Drop fs st => (handleDrop fs st s, None)
  | FileInputChange fs st => (handleFileInputChange fs st s, None)
  | RemoveFile i => (handleRemoveFile i s, None)
  | ClearAll =>
      ({| files := []; dragActive := dragActive s; validationErrors := [];
          options := options s; showSettings := showSettings s |}, None)
  | CloseErrors =>
      ({| files := files s; dragActive := dragActive s; validationErrors := [];
          options := options s; showSettings := showSettings s |}, None)
  | ToggleSettings =>
      ({| files := files s; dragActive := dragActive s;
          validationErrors := validationErrors s; options := options s;
          showSettings := negb (showSettings s) |}, None)
  | EditOptions ed =>
      ({| files := files s; dragActive := dragActive s;
          validationErrors := validationErrors s;
          options := Upload.applyEdit ed (options s);
          showSettings := showSettings s |}, None)
  | ProcessFiles => (s, Some (handleProcessFiles s))
  end.

Inductive reachable : State -> Prop :=
| reach_initial : reachable initialState
| reach_step : forall s e, reachable s -> reachable (fst (step s e)).

End Form.

(** The conditional parts of the rendered form. *)
Record Screen : Type := {
  dropZoneText : string;
  errorLines : option (list string);     (* [validationErrors.length > 0 &&] *)
  countLabel : option string;            (* [files.length > 0 &&] *)
  clearAllButton : bool;                 (* [files.length > 1 &&] *)
  processButton : bool;                  (* inside [files.length > 0 &&] *)
  helpText : bool                        (* [files.length === 0 &&] *)
}.

Definition UploadSection (s : State) : Screen :=
  let n := List.length (files s) in
  {| dropZoneText := if dragActive s then "Drop files here"
                     else "Click to upload or drag and drop";
     errorLines := if Nat.ltb 0 (List.length (validationErrors s))
                   then Some (validationErrors s) else None;
     countLabel := if Nat.ltb 0 n
                   then Some (Results.natLabel n ++ " file"
                                ++ (if negb (Nat.eqb n 1) then "s" else "")
                                ++ " selected")
                   else None;
     clearAllButton := Nat.ltb 1 n;
     processButton := Nat.ltb 0 n;
     helpText := Nat.eqb n 0 |}.

End UploadForm.

(* ===================================================================== *)
(** * Sample data for the scenarios *)
(* ===================================================================== *)

Module Samples.
Import JS Schema.

Definition blank : ConfidenceValue := mkCV VNull 0.

Definition text (s : string) : ConfidenceValue := mkCV (VStr s) (95 # 100).

Definition number (q : Q) : ConfidenceValue := mkCV (VNum (Fin q)) (9 # 10).

Definition blankAddress : Address :=
  {| name := blank; address := blank; city := blank; state := blank;
     zip_code := blank; country := blank; phone := blank; email := blank |}.

Definition acme : Address :=
  {| name := text "Acme Imports"; address := text "1 Dock Road";
     city := text "Rotterdam"; state := blank; zip_code := text "3011";
     country := text "NL"; phone := blank; email := blank |}.

Definition invoiceFor (shipTo consigneeAddr : Address) : InvoiceData :=
  {| invoice_number := text "INV-7"; invoice_date := text "2024-05-01";
     currency := text "USD"; total_amount := number (12345 # 10);
     exporter := blankAddress; consignee := consigneeAddr; ship_to := shipTo;
     ior := blankAddress; line_items := [] |}.

Definition packingListWith (ds : option (list Destination)) : PackingListData :=
  {| total_boxes := number 2; total_net_weight_kg := blank;
     total_gross_weight_kg := number (185 # 10); boxes := [];
     destinations := ds |}.

Definition resultOf (inv : InvoiceData) (pl : PackingListData) : ExtractionResult :=
  {| er_job_id := "job-1"; er_status := "success"; overall_confidence := 9 # 10;
     invoice := inv; packing_list := pl; warnings := Some []; errors := Some [] |}.

Definition resultWith (status : string) (errs warns : list string) : ExtractionResult :=
  {| er_job_id := "job-1"; er_status := status; overall_confidence := 8 # 10;
     invoice := invoiceFor blankAddress acme;
     packing_list := packingListWith (Some []);
     warnings := Some warns; errors := Some errs |}.

Definition jobWith (r : option ExtractionResult) : JobStatus :=
  {| job_id := "job-1"; js_status := "completed"; js_progress := 100;
     js_message := ""; js_result := r;
     multi_address_download := None; simplified_download := None |}.

Definition invoicePdf : App.File :=
  {| App.file_name := "invoice.pdf"; App.file_size := 52000;
     App.file_type := "application/pdf" |}.

Definition packingPdf : App.File :=
  {| App.file_name := "packing.pdf"; App.file_size := 48000;
     App.file_type := "application/pdf" |}.

(** A ship-to address whose name is the number zero and nothing else. *)
Definition zeroNamed : Address :=
  {| name := mkCV (VNum (Fin 0)) (9 # 10); address := blank; city := blank;
     state := blank; zip_code := blank; country := blank; phone := blank;
     email := blank |}.


Definition sampleItem : LineItem :=
  {| li_description := text "Widget"; hs_code_origin := text "8471";
     hs_code_destination := blank; li_quantity := number 3;
     unit_price_usd := number (25 # 10); total_price_usd := number (75 # 10);
     unit_weight_kg := number (4 # 10); igst_percent := number 18 |}.

Definition sampleBox : Box :=
  {| box_number := number 1; length_cm := number 40; width_cm := number 30;
     height_cm := number 20; gross_weight_kg := number (92 # 10);
     net_weight_kg := blank; items := []; destination_id := None;
     receiver := None |}.

End Samples.

(* ===================================================================== *)
(** * Sample data for the upload form *)
(* ===================================================================== *)

Module UploadSamples.
Import JS Schema Samples.

Definition hugePdf : App.File :=
  {| App.file_name := "scan.pdf"; App.file_size := 31457280;
     App.file_type := "application/pdf" |}.

Definition spreadsheet : App.File :=
  {| App.file_name := "items.xlsx"; App.file_size := 2048;
     App.file_type := "application/vnd.ms-excel" |}.

Definition sizeText (bytes : N) : string := "30 MB".

Definition stampAt (i : nat) : string := "1714550000000-0." ++ Results.natLabel i.

(** The form after one drop of four files, two of which are rejected. *)
Definition afterDrop : UploadForm.State :=
  fst (UploadForm.step sizeText UploadForm.initialState
         (UploadForm.Drop [invoicePdf; hugePdf; packingPdf; spreadsheet] stampAt)).

Definition inrOptions : ExtractionOptions :=
  Upload.applyEdit (Upload.ExchangeRateChange "83.5")
    (Upload.applyEdit (Upload.CurrencyChange INR) Upload.DEFAULT_OPTIONS).

Definition usableJob : JobStatus :=
  jobWith (Some (resultWith "success" [] ["low confidence on HS code"])).

End UploadSamples.

(* ===================================================================== *)
(** * Properties *)
(* ===================================================================== *)

Local Open Scope Q_scope.

(** ** Boolean comparisons on rationals *)

Lemma Qltb_true (x y : Q) : JS.Qltb x y = true <-> x < y.
Proof.
  unfold JS.Qltb. rewrite negb_true_iff.
  split; intro H.
  - apply Qnot_le_lt. intro Hle. apply Qle_bool_iff in Hle. congruence.
  - destruct (Qle_bool y x) eqn:E; [|reflexivity].
    apply Qle_bool_iff in E. exfalso. apply (Qlt_not_le _ _ H E).
Qed.

Lemma Qltb_false (x y : Q) : JS.Qltb x y = false <-> y <= x.
Proof.
  unfold JS.Qltb. rewrite negb_false_iff. apply Qle_bool_iff.
Qed.

Lemma Qle_bool_false (x y : Q) : Qle_bool x y = false <-> y < x.
Proof.
  split; intro H.
  - apply Qnot_le_lt. intro Hle. apply Qle_bool_iff in Hle. congruence.
  - destruct (Qle_bool x y) eqn:E; [|reflexivity].
    apply Qle_bool_iff in E. exfalso. apply (Qlt_not_le _ _ H E).
Qed.



Lemma Math_max_lower (a b : Q) : a <= JS.Math_max a b.
Proof.
  unfold JS.Math_max. destruct (Qle_bool a b) eqn:E.
  - apply Qle_bool_iff in E. exact E.
  - apply Qle_refl.
Qed.

Lemma Math_min_cases (a b : Q) :
  (JS.Math_min a b = a /\ a <= b) \/ (JS.Math_min a b = b /\ b < a).
Proof.
  unfold JS.Math_min. destruct (Qle_bool a b) eqn:E.
  - left. split; [reflexivity | apply Qle_bool_iff; exact E].
  - right. split; [reflexivity | apply Qle_bool_false; exact E].
Qed.

(** ** The progress estimator *)

(** Splits on which argument [Math.min] returned in the updater. *)
Ltac min_cases st prev :=
  let H := fresh "Hmin" in
  let Hc := fresh "Hcmp" in
  destruct (Math_min_cases (App.target st)
              (prev + JS.Math_max (3 # 10) ((App.target st - prev) * (6 # 100))))
    as [[H Hc] | [H Hc]]; rewrite H in *.

Section Estimator.
Import App.

(** The checkpoint selected at any elapsed time is one of the table. *)
Lemma currentStepAt_in_steps (elapsed : Z) : In (currentStepAt elapsed) steps.
Proof.
  unfold currentStepAt, steps. cbn [fold_left delay step0].
  repeat match goal with
         | |- context [if ?c then _ else _] => destruct c
         end; cbn; tauto.
Qed.

Lemma step_target_bounds (st : ProgressStep) : In st steps -> 10 <= target st <= 85.
Proof.
  unfold steps. cbn [In].
  intros [H | [H | [H | [H | [H | []]]]]]; subst st; cbn [target step0];
    split; unfold Qle; cbn; lia.
Qed.

Lemma target_le_85 (elapsed : Z) : target (currentStepAt elapsed) <= 85.
Proof. apply step_target_bounds, currentStepAt_in_steps. Qed.


Lemma updater_stays_below (st : ProgressStep) (prev bound : Q) :
  target st <= bound -> prev <= bound -> progressUpdater st prev <= bound.
Proof.
  intros Ht Hp. unfold progressUpdater. destruct (JS.Qltb prev (target st)) eqn:E.
  - min_cases st prev; lra.
  - exact Hp.
Qed.




Lemma emitted_bounded (bound : Q) (ticks : list Z) :
  85 <= bound -> forall p, p <= bound -> Forall (fun x => x <= bound) (emitted p ticks).
Proof.
  intro Hb. induction ticks as [|e rest IH]; intros p Hp; cbn [emitted].
  - constructor.
  - assert (Hstep : tick e p <= bound).
    { apply updater_stays_below; [|exact Hp].
      pose proof (target_le_85 e). lra. }
    constructor; [exact Hstep | apply IH; exact Hstep].
Qed.

(** The interval callback of a live timer is a tick of the estimator. *)
Lemma progressTrace_emitted (nows : list Z) :
  forall s start,
    progressIntervalRef s = Some start ->
    progressTrace s nows = emitted (progress s) (map (fun now => (now - start)%Z) nows).
Proof.
  induction nows as [|now rest IH]; intros s start Href; cbn [progressTrace emitted map].
  - reflexivity.
  - assert (Hs : progress (onInterval now s) = tick (now - start) (progress s)
                 /\ progressIntervalRef (onInterval now s) = Some start).
    { unfold onInterval. rewrite Href. cbn. split; reflexivity. }
    destruct Hs as [Hp Hr]. rewrite (IH _ _ Hr), Hp. reflexivity.
Qed.


End Estimator.

(** ** The orchestrator *)

Section Orchestrator.
Import Schema App.

Lemma updater_never_reaches_100 (st : ProgressStep) (prev : Q) :
  In st steps -> ~ prev == 100 -> ~ progressUpdater st prev == 100.
Proof.
  intros Hin Hne. pose proof (step_target_bounds st Hin) as [_ Hb].
  unfold progressUpdater. destruct (JS.Qltb prev (target st)) eqn:E; [|exact Hne].
  intro Heq. min_cases st prev; lra.
Qed.

Lemma tick_never_reaches_100 (elapsed : Z) (prev : Q) :
  ~ prev == 100 -> ~ tick elapsed prev == 100.
Proof. apply updater_never_reaches_100, currentStepAt_in_steps. Qed.

(** Timer callbacks touch the progress value and its label only. *)
Lemma onInterval_frame (now : Z) (s : State) :
  let s' := onInterval now s in
  view s' = view s /\ files s' = files s /\ lastOptions s' = lastOptions s
  /\ error s' = error s /\ result s' = result s /\ jobId s' = jobId s
  /\ toast s' = toast s /\ progressIntervalRef s' = progressIntervalRef s
  /\ pending s' = pending s.
Proof.
  unfold onInterval. destruct (progressIntervalRef s) eqn:E; cbn; rewrite ?E; tauto.
Qed.

Lemma ticks_frame (nows : list Z) :
  forall s,
    let s' := fst (run s (map IntervalTick nows)) in
    view s' = view s /\ files s' = files s /\ lastOptions s' = lastOptions s
    /\ error s' = error s /\ result s' = result s /\ jobId s' = jobId s
    /\ toast s' = toast s /\ progressIntervalRef s' = progressIntervalRef s
    /\ pending s' = pending s.
Proof.
  induction nows as [|now rest IH]; intro s; cbn [map run step].
  - cbn. tauto.
  - destruct (run (onInterval now s) (map IntervalTick rest)) as [s2 fx2] eqn:E.
    cbn [fst]. specialize (IH (onInterval now s)). rewrite E in IH. cbn [fst] in IH.
    pose proof (onInterval_frame now s) as F. cbn zeta in F.
    destruct IH as (? & ? & ? & ? & ? & ? & ? & ? & ?).
    destruct F as (? & ? & ? & ? & ? & ? & ? & ? & ?).
    repeat split; congruence.
Qed.

(** C2.  The estimator never shows 100 by itself: every checkpoint target is
    below 100, a tick never produces 100 from a value that is not already
    100, and every value shown during a run stays below 100.  In the whole
    application the only turn of the event loop
    that brings the progress value to 100 is the settlement of the
    extraction call with a response whose result is not marked failed. *)
Theorem only_confirmed_success_sets_100 :
  (forall st, In st steps -> target st < 100)
  /\ (forall (elapsed : Z) (prev : Q), ~ prev == 100 -> ~ tick elapsed prev == 100)
  /\ (forall (s : State) selectedFiles options (now : Z) (nows : list Z),
         Forall (fun x => x < 100)
                (progressTrace (fst (handleProcess selectedFiles options now s)) nows))
  /\ (forall (s : State) (e : Event),
         ~ progress s == 100 ->
         progress (fst (step s e)) == 100 ->
         exists jobStatus,
           e = ExtractSettled (Fulfilled jobStatus)
           /\ isFailed (js_result jobStatus) = false).
Proof.
  split; [|split; [|split]].
  - intros st Hin. pose proof (step_target_bounds st Hin). lra.
  - apply tick_never_reaches_100.
  - intros s selectedFiles options now nows.
    rewrite (progressTrace_emitted nows
               (fst (handleProcess selectedFiles options now s)) now eq_refl).
    cbn [handleProcess fst startProgressSimulation progress].
    pose proof (emitted_bounded 85 (map (fun n => (n - now)%Z) nows)
                  ltac:(lra) 0 ltac:(lra)) as H.
    eapply Forall_impl; [|exact H]. cbn beta. intros a Ha. lra.
  - intros s e Hne Heq.
    assert (H0 : ~ 0 == 100) by (intro H; discriminate H).
    destruct e as [fs o now | now | outcome | now | | | | t]; cbn [step fst] in Heq.
    + exfalso. apply H0. exact Heq.
    + exfalso. revert Heq. unfold onInterval.
      destruct (progressIntervalRef s); [|exact Hne].
      cbn [progress]. apply updater_never_reaches_100; [apply currentStepAt_in_steps | exact Hne].
    + destruct (pending s) eqn:Ep; [exfalso; exact (Hne Heq)|].
      destruct outcome as [jobStatus | err].
      * exists jobStatus. split; [reflexivity|].
        unfold onFulfilled, isFailed in *.
        destruct (js_result jobStatus) as [er|]; [|reflexivity].
        destruct (String.eqb (er_status er) "failed"); [|reflexivity].
        exfalso. exact (Hne Heq).
      * exfalso. exact (Hne Heq).
    + exfalso. revert Heq. unfold handleRetry.
      destruct (Nat.ltb 0 (List.length (files s))); cbn; exact H0.
    + exfalso. exact (H0 Heq).
    + exfalso. exact (Hne Heq).
    + exfalso. exact (Hne Heq).
    + exfalso. exact (Hne Heq).
Qed.

End Orchestrator.

Section TerminalResponses.
Import Schema App Samples.

(** After a submission and any number of timer callbacks the screen is the
    processing screen without an error, and the call is outstanding. *)
Lemma in_flight_state (s : State) selectedFiles options (now : Z) (nows : list Z) :
  let s1 := fst (run s (Process selectedFiles options now :: map IntervalTick nows)) in
  view s1 = processing /\ files s1 = selectedFiles /\ lastOptions s1 = options
  /\ error s1 = None /\ result s1 = None /\ jobId s1 = ""
  /\ toast s1 = toast s /\ pending s1 = S (pending s).
Proof.
  cbn [run step].
  destruct (handleProcess selectedFiles options now s) as [s0 fx0] eqn:E0.
  pose proof (ticks_frame nows s0) as F. cbn zeta in F.
  destruct (run s0 (map IntervalTick nows)) as [s1 fx1]. cbn [fst] in *.
  unfold handleProcess in E0. injection E0 as <- _.
  cbn in F. destruct F as (? & ? & ? & ? & ? & ? & ? & ? & ?).
  repeat split; assumption.
Qed.

(** What the orchestrator does with a result marked failed: the timer is
    stopped, the view does not change, no switch to the results is
    scheduled, and the error text is the errors followed by the warnings
    joined by " | ", or the fallback sentence when there are none. *)
Lemma failed_result_handling (s : State) (jobStatus : JobStatus) (er : ExtractionResult) :
  pending s <> O ->
  js_result jobStatus = Some er ->
  er_status er = "failed" ->
  let '(s', fx) := step s (ExtractSettled (Fulfilled jobStatus)) in
  fx = []
  /\ view s' = view s
  /\ progressIntervalRef s' = None
  /\ progress s' = progress s
  /\ result s' = result s
  /\ error s' = Some (failureMessage er)
  /\ failureMessage er =
       match (orEmpty (errors er) ++ orEmpty (warnings er))%list with
       | [] => "Extraction failed. Please try again."
       | msgs => String.concat " | " msgs
       end.
Proof.
  intros Hp Hr Hs. cbn [step]. destruct (pending s) eqn:Ep; [congruence|].
  unfold onFulfilled. rewrite Hr, Hs. cbn.
  repeat split. unfold failureMessage.
  destruct (orEmpty (errors er) ++ orEmpty (warnings er))%list; reflexivity.
Qed.

(** The retry button is on screen exactly when the processing screen holds
    a non-empty error text. *)
Lemma retryOffered_iff (s : State) :
  retryOffered s = true <->
  view s = processing /\ exists msg, error s = Some msg /\ msg <> "".
Proof.
  unfold retryOffered, render. destruct (view s); cbn.
  - split; [discriminate | intros [H _]; discriminate H].
  - destruct (error s) as [msg|]; cbn.
    + destruct (String.eqb_spec msg ""); cbn.
      * subst. split; [discriminate|]. intros [_ [m [Hm Hne]]]. congruence.
      * split; [|reflexivity]. intros _. split; [reflexivity|]. exists msg. tauto.
    + split; [discriminate|]. intros [_ [m [Hm _]]]. discriminate Hm.
  - split; [|intros [H _]; discriminate H].
    destruct (result s) as [r|]; [destruct (warnings r)|]; discriminate.
Qed.

(** The scenario of the specification: two files, default options, a failed
    result with the single error "page unreadable". *)
Example failed_scenario_page_unreadable :
  let s0 := fst (run initialState
                   [Process [invoicePdf; packingPdf] (Some Upload.DEFAULT_OPTIONS) 0;
                    IntervalTick 150; IntervalTick 300]) in
  let s1 := fst (step s0 (ExtractSettled
                            (Fulfilled (jobWith (Some (resultWith "failed" ["page unreadable"] [])))))) in
  view s1 = processing
  /\ error s1 = Some "page unreadable"
  /\ progressIntervalRef s1 = None
  /\ retryOffered s1 = true.
Proof. cbn. repeat split. Qed.

(** C3 (failing input).  A failed result whose only message is the empty
    string: the orchestrator stores the empty text as the error, which the
    processing screen treats as no error at all, so neither the alert nor
    the "Try Again" button is shown, although the run has failed. *)
Theorem failed_result_with_empty_text_shows_no_retry :
  let s0 := fst (run initialState
                   [Process [invoicePdf; packingPdf] (Some Upload.DEFAULT_OPTIONS) 0;
                    IntervalTick 150]) in
  let r := step s0 (ExtractSettled
                      (Fulfilled (jobWith (Some (resultWith "failed" [""] []))))) in
  snd r = []
  /\ view (fst r) = processing
  /\ progressIntervalRef (fst r) = None
  /\ error (fst r) = Some ""
  /\ progressMessage (fst r) = "Processing failed."
  /\ (exists scr, render (fst r) = ProcessingScreen scr
                  /\ Processing.errorAlert scr = None
                  /\ Processing.retryButton scr = false)
  /\ retryOffered (fst r) = false.
Proof.
  cbn. repeat split. eexists. repeat split.
Qed.

(** C10.  A terminal response without a result is handled as a success:
    the timer is stopped, progress is set to 100, the job id and the null
    result are stored, no error is recorded and nothing is added to the
    toast, the retry button is absent, and the switch to the results view
    is scheduled after 500 ms; once it fires the view is [results] (where,
    the result being null, the results section itself is not rendered). *)
Theorem null_result_takes_success_path :
  forall (s : State) selectedFiles options (now : Z) (nows : list Z) (jobStatus : JobStatus),
    js_result jobStatus = None ->
    let s1 := fst (run s (Process selectedFiles options now :: map IntervalTick nows)) in
    let s2 := fst (step s1 (ExtractSettled (Fulfilled jobStatus))) in
    let s3 := fst (step s2 ShowResultsTimeout) in
    snd (step s1 (ExtractSettled (Fulfilled jobStatus))) = [SetTimeoutShowResults 500]
    /\ progressIntervalRef s2 = None
    /\ progress s2 = 100
    /\ progressMessage s2 = "Done!"
    /\ jobId s2 = job_id jobStatus
    /\ result s2 = None
    /\ error s2 = None
    /\ toast s2 = toast s
    /\ view s2 = processing
    /\ retryOffered s2 = false
    /\ (exists scr, render s2 = ProcessingScreen scr
                    /\ Processing.errorAlert scr = None
                    /\ Processing.retryButton scr = false)
    /\ view s3 = results
    /\ error s3 = None
    /\ retryOffered s3 = false
    /\ render s3 = NothingRendered.
Proof.
  intros s selectedFiles options now nows jobStatus Hnull s1.
  pose proof (in_flight_state s selectedFiles options now nows) as F.
  cbn zeta in F. fold s1 in F.
  destruct F as (Hv & _ & _ & He & _ & _ & Ht & Hp).
  cbn [step]. rewrite Hp. unfold onFulfilled. rewrite Hnull.
  cbn [fst snd]. unfold complete. rewrite Hnull. cbn.
  unfold retryOffered, render. cbn. rewrite Hv, He, Ht. cbn.
  repeat split. eexists. repeat split.
Qed.

End TerminalResponses.

Section Retry.
Import Schema App Samples.

Lemma step_keeps_submission (s : State) (e : Event) :
  keepsSubmission e = true ->
  files (fst (step s e)) = files s /\ lastOptions (fst (step s e)) = lastOptions s.
Proof.
  intro Hk. destruct e as [fs o now | now | outcome | now | | | | t];
    try discriminate Hk; cbn [step fst].
  - pose proof (onInterval_frame now s) as F. cbn zeta in F. tauto.
  - destruct (pending s); [tauto|].
    destruct outcome as [jobStatus | err]; cbn.
    + unfold onFulfilled. destruct (js_result jobStatus) as [er|]; cbn; [|tauto].
      destruct (String.eqb (er_status er) "failed"); cbn; tauto.
    + tauto.
  - unfold handleRetry. destruct (Nat.ltb 0 (List.length (files s))); cbn; tauto.
  - cbn. tauto.
  - cbn. tauto.
  - tauto.
Qed.

Lemma run_keeps_submission (es : list Event) :
  forall s,
    forallb keepsSubmission es = true ->
    files (fst (run s es)) = files s /\ lastOptions (fst (run s es)) = lastOptions s.
Proof.
  induction es as [|e rest IH]; intros s Hk; cbn [run].
  - cbn. tauto.
  - cbn [forallb] in Hk. apply andb_true_iff in Hk as [He Hrest].
    pose proof (step_keeps_submission s e He) as [Hf Ho].
    destruct (step s e) as [s1 fx1]. cbn [fst] in Hf, Ho.
    destruct (IH s1 Hrest) as [IHf IHo]. destruct (run s1 rest) as [s2 fx2].
    cbn [fst] in *. split; congruence.
Qed.

(** C8 (as amended).  With stored files, retry is the same call as the
    original submission: whatever happened in between (timer callbacks,
    settlements, earlier retries, ...), it behaves exactly like
    [handleProcess] on the files and options of the last submission and
    issues one extraction call for them.  Without stored files it goes back
    to the upload view and clears the error, the progress and the progress
    message; every other piece of state is left as it is. *)
Theorem retry_replays_submission_or_returns_to_upload :
  (forall (s : State) selectedFiles options (t0 : Z) (es : list Event) (now : Z),
      selectedFiles <> [] ->
      forallb keepsSubmission es = true ->
      let s1 := fst (run s (Process selectedFiles options t0 :: es)) in
      step s1 (Retry now) = step s1 (Process selectedFiles options now)
      /\ snd (step s1 (Retry now)) = [ExtractDocuments selectedFiles options]
      /\ view (fst (step s1 (Retry now))) = processing)
  /\ (forall (s : State) (now : Z),
         files s = [] ->
         let r := step s (Retry now) in
         snd r = []
         /\ view (fst r) = upload
         /\ error (fst r) = None
         /\ progress (fst r) = 0
         /\ progressMessage (fst r) = ""
         /\ files (fst r) = files s
         /\ lastOptions (fst r) = lastOptions s
         /\ result (fst r) = result s
         /\ jobId (fst r) = jobId s
         /\ toast (fst r) = toast s
         /\ progressIntervalRef (fst r) = progressIntervalRef s
         /\ pending (fst r) = pending s).
Proof.
  split.
  - intros s selectedFiles options t0 es now Hne Hk s1.
    assert (Hs1 : files s1 = selectedFiles /\ lastOptions s1 = options).
    { subst s1. cbn [run step].
      destruct (handleProcess selectedFiles options t0 s) as [s0 fx0] eqn:E0.
      pose proof (run_keeps_submission es s0 Hk) as [Hf Ho].
      destruct (run s0 es) as [s2 fx2]. cbn [fst] in *.
      unfold handleProcess in E0. injection E0 as <- _. cbn in Hf, Ho.
      split; assumption. }
    destruct Hs1 as [Hf Ho]. cbn [step]. unfold handleRetry. rewrite Hf, Ho.
    destruct selectedFiles as [|f fs]; [congruence|]. cbn. repeat split.
  - intros s now Hf r. subst r. cbn [step]. unfold handleRetry. rewrite Hf. cbn.
    repeat split.
Qed.

(** C8 (counterexample).  A submission with an empty file list that is
    rejected by the transport: the retry button is on screen, there are no
    stored files, and retrying leaves the stored options in place, so the
    job-scoped state is not cleared. *)
Lemma retry_without_files_keeps_stored_options :
  let s := fst (run initialState
                  [Process [] (Some Upload.DEFAULT_OPTIONS) 0;
                   ExtractSettled (Rejected (ThrownError "Network Error"))]) in
  let s' := fst (step s (Retry 1)) in
  files s = []
  /\ retryOffered s = true
  /\ view s' = upload
  /\ lastOptions s' = Some Upload.DEFAULT_OPTIONS
  /\ ~ spec_jobScopedCleared s'.
Proof.
  cbn. repeat split. intros (_ & H & _). discriminate H.
Qed.

End Retry.

(** ** Export options *)

Section Options.
Import JS Schema Upload.

Lemma currency_change_establishes (c : OutputCurrency) (prev : ExtractionOptions) :
  rateClearedOnAuto (onCurrencyChange c prev).
Proof.
  unfold rateClearedOnAuto, onCurrencyChange. cbn. intros ->. reflexivity.
Qed.

Lemma offered_edit_preserves (o : ExtractionOptions) (e : OptionsEdit) :
  rateClearedOnAuto o -> offered o e = true -> rateClearedOnAuto (applyEdit e o).
Proof.
  intros Hinv Hoff. destruct e as [c | t | b]; cbn [applyEdit].
  - apply currency_change_establishes.
  - unfold rateClearedOnAuto, onExchangeRateChange. cbn. intro Hauto.
    cbn in Hoff. unfold showExchangeRate in Hoff. rewrite Hauto in Hoff. discriminate Hoff.
  - unfold rateClearedOnAuto, onSyncChange. cbn. exact Hinv.
Qed.

(** C7 (as amended).  Choosing "auto" clears the exchange rate and choosing
    another currency keeps it, from every state.  The rule "no exchange
    rate while the currency is auto" holds after every currency change, is
    kept by the HS-code switch, and is kept by an exchange-rate edit made
    while the field is shown (currency other than auto); hence it holds in
    every state reachable from the defaults through the edits the form
    offers. *)
Theorem auto_currency_clears_exchange_rate :
  (forall prev, exchange_rate (onCurrencyChange auto prev) = None)
  /\ (forall prev c, c <> auto ->
        exchange_rate (onCurrencyChange c prev) = exchange_rate prev)
  /\ (forall prev c, rateClearedOnAuto (onCurrencyChange c prev))
  /\ (forall prev b, rateClearedOnAuto prev -> rateClearedOnAuto (onSyncChange b prev))
  /\ (forall prev t, showExchangeRate prev = true ->
        rateClearedOnAuto (onExchangeRateChange t prev))
  /\ (forall o e, rateClearedOnAuto o -> offered o e = true ->
        rateClearedOnAuto (applyEdit e o))
  /\ (forall o, reachable o -> rateClearedOnAuto o).
Proof.
  split; [|split; [|split; [|split; [|split; [|split]]]]].
  - intro prev. reflexivity.
  - intros prev c Hc. destruct c; [congruence | reflexivity | reflexivity].
  - intros prev c. apply currency_change_establishes.
  - intros prev b H. apply (offered_edit_preserves prev (SyncChange b) H). reflexivity.
  - intros prev t Hshow Hauto. cbn in Hauto.
    unfold showExchangeRate in Hshow. rewrite Hauto in Hshow. discriminate Hshow.
  - apply offered_edit_preserves.
  - intros o Hr. induction Hr as [|o e _ IH Hoff].
    + intros _. reflexivity.
    + apply offered_edit_preserves; assumption.
Qed.

(** C7 (counterexample).  The exchange-rate handler itself does not look at
    the currency: applied to the default options (currency auto, no rate)
    it stores a rate, and the rule no longer holds. *)
Lemma exchange_rate_edit_under_auto_breaks_rule :
  rateClearedOnAuto DEFAULT_OPTIONS
  /\ output_currency (applyEdit (ExchangeRateChange "83.5") DEFAULT_OPTIONS) = auto
  /\ exchange_rate (applyEdit (ExchangeRateChange "83.5") DEFAULT_OPTIONS)
     = Some (Fin (835 # 10))
  /\ ~ rateClearedOnAuto (applyEdit (ExchangeRateChange "83.5") DEFAULT_OPTIONS).
Proof.
  split; [intros _; reflexivity|].
  split; [reflexivity|].
  split; [vm_compute; reflexivity|].
  intro H. specialize (H eq_refl). vm_compute in H. discriminate H.
Qed.

End Options.

(** ** Result presentation *)

Section Receiver.
Import JS Schema Results Samples.

(** ToBoolean on the values of the schema: non-empty strings and numbers
    other than zero and NaN. *)
Lemma truthy_iff (x : JSValue) :
  truthy x = true <->
  (exists s, x = VStr s /\ s <> "")
  \/ (exists neg, x = VNum (Inf neg))
  \/ (exists q, x = VNum (Fin q) /\ ~ q == 0).
Proof.
  destruct x as [| | s | [|neg|q]]; cbn.
  - split; [discriminate|]. intros [[s [H _]] | [[n H] | [q [H _]]]]; discriminate H.
  - split; [discriminate|]. intros [[s [H _]] | [[n H] | [q [H _]]]]; discriminate H.
  - rewrite negb_true_iff. split.
    + intro H. left. exists s. split; [reflexivity|]. intro Hs. subst s. discriminate H.
    + intros [[s' [H Hne]] | [[n H] | [q [H _]]]]; try discriminate H.
      injection H as <-. destruct (String.eqb_spec s ""); [contradiction | reflexivity].
  - split; [discriminate|]. intros [[s [H _]] | [[n H] | [q [H _]]]]; discriminate H.
  - split; [|reflexivity]. intros _. right. left. exists neg. reflexivity.
  - unfold Qis_zero. rewrite negb_true_iff. split.
    + intro H. right. right. exists q. split; [reflexivity|].
      intro Hq. apply Qeq_bool_iff in Hq. congruence.
    + intros [[s [H _]] | [[n H] | [q' [H Hne]]]]; try discriminate H.
      injection H as <-. destruct (Qeq_bool q 0) eqn:E; [|reflexivity].
      apply Qeq_bool_iff in E. contradiction.
Qed.

Lemma blank_is_falsy (x : JSValue) : isBlank x = true -> truthy x = false.
Proof.
  destruct x as [| | s | n]; cbn; try reflexivity; try discriminate.
  intros ->. reflexivity.
Qed.

Lemma truthy_jsOr (a b : JSValue) : truthy (jsOr a b) = truthy a || truthy b.
Proof. unfold jsOr. destruct (truthy a) eqn:E; [rewrite E|]; reflexivity. Qed.

Lemma receiver_by_truthiness (result : ExtractionResult) :
  getReceiverAddress result =
    if existsb truthy (keyValues (ship_to (invoice result)))
    then ship_to (invoice result) else consignee (invoice result).
Proof.
  unfold getReceiverAddress, keyValues. cbn [existsb].
  rewrite !truthy_jsOr, orb_false_r, !orb_assoc. reflexivity.
Qed.

(** C4 (as amended).  Receiver resolution returns the ship-to address
    exactly when one of its name, address, city and country holds a truthy
    value, and the consignee otherwise; truthy values are the non-empty
    strings and the numbers other than zero and NaN.  So a ship-to whose
    four key fields are all null, undefined or empty resolves to the
    consignee, and one with a non-empty string in any of them resolves to
    itself. *)
Theorem receiver_is_ship_to_iff_key_field_truthy :
  forall result : ExtractionResult,
    let shipTo := ship_to (invoice result) in
    ((exists x, In x (keyValues shipTo) /\ truthy x = true) ->
     getReceiverAddress result = shipTo)
    /\ ((forall x, In x (keyValues shipTo) -> truthy x = false) ->
        getReceiverAddress result = consignee (invoice result))
    /\ (forallb isBlank (keyValues shipTo) = true ->
        getReceiverAddress result = consignee (invoice result))
    /\ ((exists s, In (VStr s) (keyValues shipTo) /\ s <> "") ->
        getReceiverAddress result = shipTo)
    /\ (forall x, truthy x = true <->
                  (exists s, x = VStr s /\ s <> "")
                  \/ (exists neg, x = VNum (Inf neg))
                  \/ (exists q, x = VNum (Fin q) /\ ~ q == 0)).
Proof.
  intros result shipTo. rewrite receiver_by_truthiness. fold shipTo.
  assert (Hyes : (exists x, In x (keyValues shipTo) /\ truthy x = true) ->
                 existsb truthy (keyValues shipTo) = true).
  { intro H. apply existsb_exists. exact H. }
  assert (Hno : (forall x, In x (keyValues shipTo) -> truthy x = false) ->
                existsb truthy (keyValues shipTo) = false).
  { intro H. destruct (existsb truthy (keyValues shipTo)) eqn:E; [|reflexivity].
    apply existsb_exists in E as [x [Hin Ht]]. rewrite (H x Hin) in Ht. discriminate Ht. }
  split; [|split; [|split; [|split]]].
  - intro H. rewrite (Hyes H). reflexivity.
  - intro H. rewrite (Hno H). reflexivity.
  - intro H. rewrite Hno; [reflexivity|].
    intros x Hin. apply blank_is_falsy.
    rewrite forallb_forall in H. apply H. exact Hin.
  - intros [s [Hin Hne]]. rewrite Hyes; [reflexivity|].
    exists (VStr s). split; [exact Hin|].
    apply truthy_iff. left. exists s. split; [reflexivity | exact Hne].
  - apply truthy_iff.
Qed.

(** C4 (counterexample).  The ship-to name is the number zero: the field is
    not blank (the accessor shows it as "0"), yet the consignee is returned. *)
Lemma receiver_ignores_zero_valued_field :
  let result := resultOf (invoiceFor zeroNamed acme) (packingListWith None) in
  isBlank (value (name (ship_to (invoice result)))) = false
  /\ v (name (ship_to (invoice result))) = "0"
  /\ getReceiverAddress result = consignee (invoice result)
  /\ getReceiverAddress result <> ship_to (invoice result).
Proof.
  cbn zeta. split; [reflexivity|]. split; [vm_compute; reflexivity|].
  split; [reflexivity|]. vm_compute. intro H. discriminate H.
Qed.

End Receiver.

(** ** Rounding to doubles *)

Section Rounding.
Import Float64.

(** *** Powers of two *)
Lemma pow2_pos (k : Z) : 0 < pow2 k.
Proof. apply Qpower_0_lt. reflexivity. Qed.

Lemma two_not_zero : ~ 2 == 0.
Proof. intro H. discriminate H. Qed.

Lemma pow2_add (a b : Z) : pow2 (a + b) == pow2 a * pow2 b.
Proof. apply Qpower_plus, two_not_zero. Qed.

Lemma pow2_le (a b : Z) : (a <= b)%Z -> pow2 a <= pow2 b.
Proof. intro H. apply Qpower_le_compat_l; [exact H | discriminate]. Qed.

Lemma pow2_lt (a b : Z) : (a < b)%Z -> pow2 a < pow2 b.
Proof. intro H. apply Qpower_lt_compat_l; [exact H | reflexivity]. Qed.

Lemma pow2_lt_inv (a b : Z) : pow2 a < pow2 b -> (a < b)%Z.
Proof. intro H. apply (Qpower_lt_compat_l_inv 2); [exact H | reflexivity]. Qed.

Lemma pow2_cancel (k : Z) : pow2 (- k) * pow2 k == 1.
Proof. rewrite <- pow2_add. replace (- k + k)%Z with 0%Z by lia. reflexivity. Qed.

Lemma pow2_Z (n : Z) : (0 <= n)%Z -> pow2 n == inject_Z (2 ^ n).
Proof. intro H. unfold pow2. rewrite (Zpower_Qpower 2 n H). reflexivity. Qed.

Lemma inject_Z_le (a b : Z) : (a <= b)%Z -> inject_Z a <= inject_Z b.
Proof. intro H. rewrite <- Zle_Qle. exact H. Qed.

Lemma inject_Z_lt (a b : Z) : (a < b)%Z -> inject_Z a < inject_Z b.
Proof. intro H. rewrite <- Zlt_Qlt. exact H. Qed.

(** *** The binary exponent *)
Lemma log2_bounds (n : Z) :
  (0 < n)%Z -> pow2 (Z.log2 n) <= inject_Z n /\ inject_Z n < pow2 (Z.log2 n + 1).
Proof.
  intro Hn. destruct (Z.log2_spec n Hn) as [Hlo Hhi].
  pose proof (Z.log2_nonneg n) as Hnn.
  rewrite (pow2_Z (Z.log2 n)) by exact Hnn.
  rewrite (pow2_Z (Z.log2 n + 1)) by lia.
  split; [apply inject_Z_le; exact Hlo | apply inject_Z_lt; exact Hhi].
Qed.

Lemma ilog2_spec (x : Q) :
  0 < x -> pow2 (ilog2 x) <= x /\ x < pow2 (ilog2 x + 1).
Proof.
  intro Hx. unfold ilog2.
  set (la := Z.log2 (Qnum x)). set (lb := Z.log2 (Zpos (Qden x))).
  assert (Ha : (0 < Qnum x)%Z).
  { unfold Qlt in Hx. cbn in Hx. lia. }
  destruct (log2_bounds (Qnum x) Ha) as [Ha1 Ha2]. fold la in Ha1, Ha2.
  destruct (log2_bounds (Zpos (Qden x)) eq_refl) as [Hb1 Hb2]. fold lb in Hb1, Hb2.
  assert (Hxb : inject_Z (Qnum x) == x * inject_Z (Zpos (Qden x))).
  { destruct x as [a b]. unfold Qeq. cbn. lia. }
  assert (Hlow : pow2 (la - lb - 1) < x).
  { apply (Qmult_lt_r _ _ (pow2 (lb + 1)) (pow2_pos _)).
    rewrite <- pow2_add. replace (la - lb - 1 + (lb + 1))%Z with la by lia.
    apply Qle_lt_trans with (inject_Z (Qnum x)); [exact Ha1|].
    rewrite Hxb. apply Qmult_lt_l; assumption. }
  assert (Hup : x < pow2 (la - lb + 1)).
  { apply (Qmult_lt_r _ _ (pow2 lb) (pow2_pos _)).
    rewrite <- pow2_add. replace (la - lb + 1 + lb)%Z with (la + 1)%Z by lia.
    apply Qle_lt_trans with (inject_Z (Qnum x)); [|exact Ha2].
    rewrite Hxb. apply Qmult_le_l; assumption. }
  destruct (Qle_bool (pow2 (la - lb)) x) eqn:E.
  - apply Qle_bool_iff in E. split; assumption.
  - split; [apply Qlt_le_weak; exact Hlow|].
    replace (la - lb - 1 + 1)%Z with (la - lb)%Z by lia.
    apply Qnot_le_lt. intro H. apply Qle_bool_iff in H. congruence.
Qed.

Lemma ilog2_unique (x : Q) (e : Z) :
  pow2 e <= x -> x < pow2 (e + 1) -> ilog2 x = e.
Proof.
  intros Hlo Hhi.
  assert (Hx : 0 < x) by (apply Qlt_le_trans with (pow2 e); [apply pow2_pos | exact Hlo]).
  destruct (ilog2_spec x Hx) as [Slo Shi].
  assert (H1 : (ilog2 x < e + 1)%Z).
  { apply pow2_lt_inv. apply Qle_lt_trans with x; assumption. }
  assert (H2 : (e < ilog2 x + 1)%Z).
  { apply pow2_lt_inv. apply Qle_lt_trans with x; assumption. }
  lia.
Qed.

Lemma ilog2_mono (x y : Q) : 0 < x -> x <= y -> (ilog2 x <= ilog2 y)%Z.
Proof.
  intros Hx Hxy.
  assert (Hy : 0 < y) by (apply Qlt_le_trans with x; assumption).
  destruct (ilog2_spec x Hx) as [Xlo _]. destruct (ilog2_spec y Hy) as [_ Yhi].
  assert (H : (ilog2 x < ilog2 y + 1)%Z).
  { apply pow2_lt_inv. apply Qle_lt_trans with x; [exact Xlo|].
    apply Qle_lt_trans with y; assumption. }
  lia.
Qed.

(** *** Nearest integer, ties to even *)
Lemma floor_bounds (y : Q) :
  inject_Z (Qfloor y) <= y /\ y < inject_Z (Qfloor y) + 1.
Proof.
  split; [apply Qfloor_le|].
  pose proof (Qlt_floor y) as H. rewrite inject_Z_plus in H. exact H.
Qed.

Lemma roundEven_cases (y : Q) :
  let f := Qfloor y in
  (roundEven y = f /\ y - inject_Z f <= 1 # 2)
  \/ (roundEven y = (f + 1)%Z /\ 1 # 2 <= y - inject_Z f).
Proof.
  cbn zeta. unfold roundEven.
  destruct (JS.Qltb (y - inject_Z (Qfloor y)) (1 # 2)) eqn:E1.
  - apply Qltb_true in E1. left. split; [reflexivity | lra].
  - apply Qltb_false in E1.
    destruct (JS.Qltb (1 # 2) (y - inject_Z (Qfloor y))) eqn:E2.
    + right. split; [reflexivity | exact E1].
    + apply Qltb_false in E2. destruct (Z.even (Qfloor y)).
      * left. split; [reflexivity | exact E2].
      * right. split; [reflexivity | exact E1].
Qed.

Lemma roundEven_near (y : Q) :
  y - (1 # 2) <= inject_Z (roundEven y) /\ inject_Z (roundEven y) <= y + (1 # 2).
Proof.
  destruct (floor_bounds y) as [Hlo Hhi].
  destruct (roundEven_cases y) as [[-> H] | [-> H]].
  - split; lra.
  - rewrite inject_Z_plus. change (inject_Z 1) with 1. split; lra.
Qed.

Lemma roundEven_Z (n : Z) : roundEven (inject_Z n) = n.
Proof.
  unfold roundEven. rewrite Qfloor_Z.
  assert (E : JS.Qltb (inject_Z n - inject_Z n) (1 # 2) = true) by (apply Qltb_true; lra).
  rewrite E. reflexivity.
Qed.

Lemma roundEven_mono (y1 y2 : Q) : y1 <= y2 -> (roundEven y1 <= roundEven y2)%Z.
Proof.
  intro Hle. pose proof (Qfloor_resp_le y1 y2 Hle) as Hf.
  destruct (Z.eq_dec (Qfloor y1) (Qfloor y2)) as [He | Hne].
  - unfold roundEven. rewrite He.
    set (f := Qfloor y2). set (r1 := y1 - inject_Z f). set (r2 := y2 - inject_Z f).
    assert (Hr : r1 <= r2) by (subst r1 r2; lra).
    destruct (JS.Qltb r1 (1 # 2)) eqn:A1.
    + destruct (JS.Qltb r2 (1 # 2)); [lia|].
      destruct (JS.Qltb (1 # 2) r2); [lia|]. destruct (Z.even f); lia.
    + apply Qltb_false in A1.
      assert (A2 : JS.Qltb r2 (1 # 2) = false) by (apply Qltb_false; lra).
      rewrite A2.
      destruct (JS.Qltb (1 # 2) r1) eqn:B1.
      * apply Qltb_true in B1.
        assert (B2 : JS.Qltb (1 # 2) r2 = true) by (apply Qltb_true; lra).
        rewrite B2. lia.
      * destruct (JS.Qltb (1 # 2) r2); destruct (Z.even f); lia.
  - assert (Hlt : (Qfloor y1 + 1 <= Qfloor y2)%Z) by lia.
    destruct (roundEven_cases y1) as [[-> _] | [-> _]];
      destruct (roundEven_cases y2) as [[-> _] | [-> _]]; lia.
Qed.

(** *** Rounding a positive number *)
Lemma quantum_mono (x y : Q) : 0 < x -> x <= y -> (quantum x <= quantum y)%Z.
Proof. intros Hx Hxy. unfold quantum. pose proof (ilog2_mono x y Hx Hxy). lia. Qed.

Lemma scaled_back (x : Q) (k : Z) : x * pow2 (- k) * pow2 k == x.
Proof. rewrite <- Qmult_assoc, pow2_cancel. ring. Qed.

(** The rounding error is at most half a unit in the last place. *)
Lemma roundPos_near (x : Q) :
  x - pow2 (quantum x) * (1 # 2) <= roundPos x
  /\ roundPos x <= x + pow2 (quantum x) * (1 # 2).
Proof.
  unfold roundPos. set (k := quantum x). set (a := x * pow2 (- k)).
  destruct (roundEven_near a) as [Hlo Hhi].
  pose proof (pow2_pos k) as Hk.
  assert (Hs : a * pow2 k == x) by (subst a; apply scaled_back).
  assert (E1 : x - pow2 k * (1 # 2) == (a - (1 # 2)) * pow2 k)
    by (rewrite <- Hs; ring).
  assert (E2 : x + pow2 k * (1 # 2) == (a + (1 # 2)) * pow2 k)
    by (rewrite <- Hs; ring).
  rewrite E1, E2. split.
  - apply Qmult_le_compat_r; [exact Hlo | apply Qlt_le_weak; exact Hk].
  - apply Qmult_le_compat_r; [exact Hhi | apply Qlt_le_weak; exact Hk].
Qed.

(** Within its binade a positive number rounds to a value of the binade,
    its upper end included. *)
Lemma roundPos_upper (x : Q) :
  0 < x -> roundPos x <= pow2 (quantum x + 53).
Proof.
  intro Hx. unfold roundPos. set (k := quantum x).
  destruct (ilog2_spec x Hx) as [_ Hhi].
  assert (Hle : x <= pow2 (k + 53)).
  { apply Qlt_le_weak. apply Qlt_le_trans with (pow2 (ilog2 x + 1)); [exact Hhi|].
    apply pow2_le. subst k. unfold quantum. lia. }
  assert (Hs : x * pow2 (- k) <= inject_Z (2 ^ 53)).
  { rewrite <- (pow2_Z 53) by lia.
    apply Qle_trans with (pow2 (k + 53) * pow2 (- k)).
    - apply Qmult_le_compat_r; [exact Hle | apply Qlt_le_weak, pow2_pos].
    - rewrite <- pow2_add. replace (k + 53 + - k)%Z with 53%Z by lia. apply Qle_refl. }
  pose proof (roundEven_mono _ _ Hs) as Hm. rewrite roundEven_Z in Hm.
  apply Qle_trans with (inject_Z (2 ^ 53) * pow2 k).
  - apply Qmult_le_compat_r; [apply inject_Z_le; exact Hm | apply Qlt_le_weak, pow2_pos].
  - rewrite <- (pow2_Z 53) by lia. rewrite <- pow2_add.
    replace (53 + k)%Z with (k + 53)%Z by lia. apply Qle_refl.
Qed.

Lemma roundPos_lower (x : Q) :
  0 < x -> (-1022 <= ilog2 x)%Z -> pow2 (ilog2 x) <= roundPos x.
Proof.
  intros Hx He. unfold roundPos. set (k := quantum x).
  destruct (ilog2_spec x Hx) as [Hlo _].
  assert (Hk : (ilog2 x = k + 52)%Z) by (subst k; unfold quantum; lia).
  assert (Hs : inject_Z (2 ^ 52) <= x * pow2 (- k)).
  { rewrite <- (pow2_Z 52) by lia.
    replace 52%Z with (ilog2 x + - k)%Z at 1 by lia. rewrite pow2_add.
    apply Qmult_le_compat_r; [exact Hlo | apply Qlt_le_weak, pow2_pos]. }
  pose proof (roundEven_mono _ _ Hs) as Hm. rewrite roundEven_Z in Hm.
  apply Qle_trans with (inject_Z (2 ^ 52) * pow2 k).
  - rewrite <- (pow2_Z 52) by lia. rewrite <- pow2_add.
    replace (52 + k)%Z with (ilog2 x) by lia. apply Qle_refl.
  - apply Qmult_le_compat_r; [apply inject_Z_le; exact Hm | apply Qlt_le_weak, pow2_pos].
Qed.

Lemma roundPos_nonneg (x : Q) : 0 < x -> 0 <= roundPos x.
Proof.
  intro Hx. unfold roundPos.
  apply Qmult_le_0_compat; [|apply Qlt_le_weak, pow2_pos].
  change 0 with (inject_Z 0). apply inject_Z_le.
  rewrite <- (roundEven_Z 0). apply roundEven_mono.
  apply Qmult_le_0_compat; [apply Qlt_le_weak; exact Hx | apply Qlt_le_weak, pow2_pos].
Qed.

Lemma roundPos_mono (x y : Q) : 0 < x -> x <= y -> roundPos x <= roundPos y.
Proof.
  intros Hx Hxy.
  assert (Hy : 0 < y) by (apply Qlt_le_trans with x; assumption).
  pose proof (quantum_mono x y Hx Hxy) as Hq.
  destruct (Z.eq_dec (quantum x) (quantum y)) as [He | Hne].
  - unfold roundPos. rewrite He. set (k := quantum y).
    apply Qmult_le_compat_r; [|apply Qlt_le_weak, pow2_pos].
    apply inject_Z_le, roundEven_mono.
    apply Qmult_le_compat_r; [exact Hxy | apply Qlt_le_weak, pow2_pos].
  - assert (Hlt : (quantum x < quantum y)%Z) by lia.
    assert (Hey : (quantum y + 52 = ilog2 y)%Z /\ (-1022 <= ilog2 y)%Z).
    { unfold quantum in *. lia. }
    destruct Hey as [Hey1 Hey2].
    destruct (ilog2_spec y Hy) as [Ylo _].
    apply Qle_trans with (pow2 (ilog2 y)).
    + apply Qle_trans with (pow2 (quantum x + 53)); [apply roundPos_upper; exact Hx|].
      apply pow2_le. lia.
    + apply roundPos_lower; assumption.
Qed.

(** *** Both signs *)
Lemma round64Q_pos (x : Q) : 0 < x -> round64Q x = roundPos x.
Proof. intro H. unfold round64Q. apply Qltb_true in H. rewrite H. reflexivity. Qed.

Lemma round64Q_neg (x : Q) : x < 0 -> round64Q x = - roundPos (- x).
Proof.
  intro H. unfold round64Q.
  assert (E : JS.Qltb 0 x = false) by (apply Qltb_false; lra).
  rewrite E. apply Qltb_true in H. rewrite H. reflexivity.
Qed.

Lemma round64Q_zero (x : Q) : x == 0 -> round64Q x = 0.
Proof.
  intro H. unfold round64Q.
  assert (E1 : JS.Qltb 0 x = false) by (apply Qltb_false; lra).
  assert (E2 : JS.Qltb x 0 = false) by (apply Qltb_false; lra).
  rewrite E1, E2. reflexivity.
Qed.

Lemma Qsign_cases (x : Q) : x < 0 \/ x == 0 \/ 0 < x.
Proof.
  destruct (Qlt_le_dec x 0) as [H | H]; [left; exact H|].
  destruct (Qlt_le_dec 0 x) as [H' | H']; [right; right; exact H'|].
  right; left. lra.
Qed.

Lemma round64Q_mono (x y : Q) : x <= y -> round64Q x <= round64Q y.
Proof.
  intro Hxy.
  destruct (Qsign_cases x) as [Hx | [Hx | Hx]];
    destruct (Qsign_cases y) as [Hy | [Hy | Hy]]; try lra.
  - rewrite (round64Q_neg x Hx), (round64Q_neg y Hy).
    assert (H : roundPos (- y) <= roundPos (- x)) by (apply roundPos_mono; lra). lra.
  - rewrite (round64Q_neg x Hx), (round64Q_zero y Hy).
    assert (H : 0 <= roundPos (- x)) by (apply roundPos_nonneg; lra). lra.
  - rewrite (round64Q_neg x Hx), (round64Q_pos y Hy).
    assert (H : 0 <= roundPos (- x)) by (apply roundPos_nonneg; lra).
    assert (H' : 0 <= roundPos y) by (apply roundPos_nonneg; lra). lra.
  - rewrite (round64Q_zero x Hx), (round64Q_zero y Hy). apply Qle_refl.
  - rewrite (round64Q_zero x Hx), (round64Q_pos y Hy). apply roundPos_nonneg; exact Hy.
  - rewrite (round64Q_pos x Hx), (round64Q_pos y Hy). apply roundPos_mono; assumption.
Qed.

(** Error bound for a magnitude below [2^(j+1)], [j] a normal exponent. *)
Lemma round64Q_error (x : Q) (j : Z) :
  (-1022 <= j)%Z -> - pow2 (j + 1) < x -> x < pow2 (j + 1) ->
  x - pow2 (j - 53) <= round64Q x /\ round64Q x <= x + pow2 (j - 53).
Proof.
  intros Hj Hlo Hhi.
  assert (Hq : forall z, 0 < z -> z < pow2 (j + 1) ->
                         pow2 (quantum z) * (1 # 2) <= pow2 (j - 53)).
  { intros z Hz Hzj. destruct (ilog2_spec z Hz) as [Zlo _].
    assert (Hi : (ilog2 z < j + 1)%Z)
      by (apply pow2_lt_inv; apply Qle_lt_trans with z; assumption).
    assert (Hk : (quantum z <= j - 52)%Z) by (unfold quantum; lia).
    apply Qle_trans with (pow2 (j - 52) * (1 # 2)).
    - apply Qmult_le_compat_r; [apply pow2_le; exact Hk | discriminate].
    - replace (j - 52)%Z with (j - 53 + 1)%Z by lia. rewrite pow2_add.
      change (pow2 1) with 2. ring_simplify. apply Qle_refl. }
  pose proof (pow2_pos (j - 53)) as Hp.
  destruct (Qsign_cases x) as [Hx | [Hx | Hx]].
  - rewrite (round64Q_neg x Hx).
    destruct (roundPos_near (- x)) as [N1 N2].
    assert (H := Hq (- x) ltac:(lra) ltac:(lra)). split; lra.
  - rewrite (round64Q_zero x Hx). split; lra.
  - rewrite (round64Q_pos x Hx).
    destruct (roundPos_near x) as [N1 N2].
    assert (H := Hq x Hx Hhi). split; lra.
Qed.

End Rounding.

Section Confidence.
Import JS Schema Results Samples Float64.

Lemma round64Q_small_nat (m : nat) :
  (m <= 7)%nat -> round64Q (inject_Z (Z.of_nat m)) == inject_Z (Z.of_nat m).
Proof.
  intro H. do 8 (destruct m as [|m]; [vm_compute; reflexivity|]). lia.
Qed.

Lemma eight_below_overflow : 8 < pow2 1024.
Proof.
  apply Qle_lt_trans with (pow2 3); [apply Qle_bool_iff; reflexivity|].
  apply pow2_lt. lia.
Qed.

(** A rounded value of magnitude below [2^1024] is finite. *)
Lemma round64_finite (x : Q) :
  - pow2 1024 < round64Q x -> round64Q x < pow2 1024 -> round64 x = Fin (round64Q x).
Proof.
  intros Hlo Hhi. unfold round64. cbn zeta.
  destruct (Qle_bool (pow2 1024) (round64Q x)) eqn:E1.
  - apply Qle_bool_iff in E1. exfalso. apply (Qlt_not_le _ _ Hhi E1).
  - destruct (Qle_bool (round64Q x) (- pow2 1024)) eqn:E2; [|reflexivity].
    apply Qle_bool_iff in E2. exfalso. apply (Qlt_not_le _ _ Hlo E2).
Qed.

(** Rounding a value between 0 and a whole number up to 7. *)
Lemma round64_small (x : Q) (m : nat) :
  (m <= 7)%nat -> 0 <= x -> x <= inject_Z (Z.of_nat m) ->
  round64 x = Fin (round64Q x)
  /\ 0 <= round64Q x /\ round64Q x <= inject_Z (Z.of_nat m)
  /\ x - pow2 (-51) <= round64Q x /\ round64Q x <= x + pow2 (-51).
Proof.
  intros Hm H0 Hx.
  assert (Hm7 : inject_Z (Z.of_nat m) <= 7).
  { change 7 with (inject_Z 7). apply inject_Z_le. lia. }
  assert (Hlo : 0 <= round64Q x).
  { change 0 with (round64Q 0) at 1. apply round64Q_mono. exact H0. }
  assert (Hhi : round64Q x <= inject_Z (Z.of_nat m)).
  { rewrite <- (round64Q_small_nat m Hm). apply round64Q_mono. exact Hx. }
  pose proof eight_below_overflow as H8.
  assert (H3 : pow2 3 == 8) by reflexivity.
  destruct (round64Q_error x 2 ltac:(lia)) as [E1 E2].
  - change (2 + 1)%Z with 3%Z. rewrite H3. lra.
  - change (2 + 1)%Z with 3%Z. rewrite H3. lra.
  - change (2 - 53)%Z with (-51)%Z in E1, E2.
    split; [apply round64_finite; lra|]. repeat split; assumption.
Qed.

(** The running sum of the reduce: it stays between 0 and the number of
    terms, and each addition moves it at most [2^-51] away from the exact
    sum. *)
Lemma rounded_sum_bounds (l : list Q) :
  forall (n0 : nat) (s0 S0 : Q),
    (n0 + List.length l <= 7)%nat ->
    (forall c, In c l -> 0 <= c <= 1) ->
    0 <= s0 -> s0 <= inject_Z (Z.of_nat n0) ->
    S0 - inject_Z (Z.of_nat n0) * pow2 (-51) <= s0 ->
    s0 <= S0 + inject_Z (Z.of_nat n0) * pow2 (-51) ->
    exists s,
      fold_left (fun s c => add64 s (Fin c)) l (Fin s0) = Fin s
      /\ 0 <= s /\ s <= inject_Z (Z.of_nat (n0 + List.length l))
      /\ fold_left Qplus l S0
         - inject_Z (Z.of_nat (n0 + List.length l)) * pow2 (-51) <= s
      /\ s <= fold_left Qplus l S0
              + inject_Z (Z.of_nat (n0 + List.length l)) * pow2 (-51).
Proof.
  induction l as [|c rest IH]; intros n0 s0 S0 Hn Hc H0 H1 H2 H3.
  - exists s0. cbn [fold_left List.length]. rewrite Nat.add_0_r. repeat split; assumption.
  - cbn [fold_left List.length add64] in *.
    assert (Hc0 : 0 <= c <= 1) by (apply Hc; left; reflexivity).
    assert (Hsucc : inject_Z (Z.of_nat (S n0)) == inject_Z (Z.of_nat n0) + 1).
    { rewrite Nat2Z.inj_succ. unfold Z.succ. rewrite inject_Z_plus. reflexivity. }
    destruct (round64_small (s0 + c) (S n0)) as (Hf & R0 & R1 & R2 & R3);
      [lia | lra | rewrite Hsucc; lra |].
    rewrite Hf.
    destruct (IH (S n0) (round64Q (s0 + c)) (S0 + c)) as (s & Hs & B0 & B1 & B2 & B3).
    + lia.
    + intros x Hx. apply Hc. right. exact Hx.
    + exact R0.
    + exact R1.
    + rewrite Hsucc. lra.
    + rewrite Hsucc. lra.
    + exists s. rewrite Nat.add_succ_r. repeat split; assumption.
Qed.

(** The computed average of up to seven confidences in [0,1]: it lies in
    [0,1] and within [2^-50] of the exact mean. *)
Lemma average_near_mean (l : list Q) :
  l <> [] -> (List.length l <= 7)%nat ->
  (forall c, In c l -> 0 <= c <= 1) ->
  exists a,
    average l = Fin a
    /\ 0 <= a /\ a <= 1
    /\ fold_left Qplus l 0 / inject_Z (Z.of_nat (List.length l)) - pow2 (-50) <= a
    /\ a <= fold_left Qplus l 0 / inject_Z (Z.of_nat (List.length l)) + pow2 (-50).
Proof.
  intros Hne Hlen Hc. unfold average.
  destruct (rounded_sum_bounds l 0 0 0) as (s & Hs & B0 & B1 & B2 & B3);
    [cbn; lia | exact Hc | | | | |];
    try (change (inject_Z (Z.of_nat 0)) with 0; lra).
  cbn [Nat.add] in *. rewrite Hs. cbn [div64].
  set (n := inject_Z (Z.of_nat (List.length l))) in *.
  set (S := fold_left Qplus l 0) in *.
  assert (Hn : 1 <= n).
  { subst n. change 1 with (inject_Z 1). apply inject_Z_le.
    destruct l; [congruence | cbn [List.length]; lia]. }
  assert (Hz : Qis_zero n = false).
  { unfold Qis_zero. destruct (Qeq_bool n 0) eqn:E; [|reflexivity].
    apply Qeq_bool_iff in E. lra. }
  rewrite Hz.
  assert (Hi : 0 < / n) by (apply Qinv_lt_0_compat; lra).
  assert (Hni : n * / n == 1) by (apply Qmult_inv_r; lra).
  assert (Q0 : 0 <= s / n) by (apply Qle_shift_div_l; lra).
  assert (Q1 : s / n <= 1) by (apply Qle_shift_div_r; lra).
  assert (Q2 : S / n - pow2 (-51) <= s / n).
  { apply Qle_trans with ((S - n * pow2 (-51)) / n).
    - unfold Qdiv. apply Qle_trans with (S * / n - pow2 (-51) * (n * / n));
        [rewrite Hni; lra | ring_simplify; apply Qle_refl].
    - unfold Qdiv. apply Qmult_le_compat_r; [exact B2 | lra]. }
  assert (Q3 : s / n <= S / n + pow2 (-51)).
  { apply Qle_trans with ((S + n * pow2 (-51)) / n).
    - unfold Qdiv. apply Qmult_le_compat_r; [exact B3 | lra].
    - unfold Qdiv. apply Qle_trans with (S * / n + pow2 (-51) * (n * / n));
        [ring_simplify; apply Qle_refl | rewrite Hni; lra]. }
  assert (H21 : pow2 1 == 2) by reflexivity.
  assert (Hlo : 0 <= round64Q (s / n)).
  { change 0 with (round64Q 0) at 1. apply round64Q_mono. exact Q0. }
  assert (Hhi : round64Q (s / n) <= 1).
  { rewrite <- (round64Q_small_nat 1 ltac:(lia)). apply round64Q_mono. exact Q1. }
  destruct (round64Q_error (s / n) 0 ltac:(lia)) as [E1 E2].
  - change (0 + 1)%Z with 1%Z. rewrite H21. lra.
  - change (0 + 1)%Z with 1%Z. rewrite H21. lra.
  - change (0 - 53)%Z with (-53)%Z in E1, E2.
    assert (Heps : pow2 (-51) + pow2 (-53) <= pow2 (-50))
      by (apply Qle_bool_iff; vm_compute; reflexivity).
    pose proof eight_below_overflow as H8.
    exists (round64Q (s / n)).
    split; [apply round64_finite; lra|]. repeat split; lra.
Qed.

(** The literals against which a score is compared. *)
Lemma confidence_literals :
  lit09 == 8106479329266893 # 9007199254740992
  /\ lit07 == 3152519739159347 # 4503599627370496
  /\ 9 # 10 < lit09 /\ lit09 < (9 # 10) + pow2 (-53)
  /\ (7 # 10) - pow2 (-53) < lit07 /\ lit07 < 7 # 10
  /\ lit07 < lit09.
Proof.
  repeat split; vm_compute; reflexivity.
Qed.

Lemma confidence_color_of_finite (score : Q) :
  (getConfidenceColor (Fin score) = success <-> lit09 <= score)
  /\ (getConfidenceColor (Fin score) = warning <-> lit07 <= score /\ score < lit09)
  /\ (getConfidenceColor (Fin score) = error <-> score < lit07).
Proof.
  destruct confidence_literals as (_ & _ & _ & _ & _ & _ & Hlt).
  unfold getConfidenceColor, geLiteral.
  destruct (Qle_bool lit09 score) eqn:E9; [apply Qle_bool_iff in E9 | apply Qle_bool_false in E9];
    destruct (Qle_bool lit07 score) eqn:E7; [apply Qle_bool_iff in E7 | apply Qle_bool_false in E7
                                             | apply Qle_bool_iff in E7 | apply Qle_bool_false in E7].
  - repeat split; try discriminate; try tauto; intros; exfalso; lra.
  - exfalso. lra.
  - repeat split; try discriminate; try tauto; intros; exfalso; lra.
  - repeat split; try discriminate; try tauto; intros; exfalso; lra.
Qed.

(** C5 (as amended).  The confidence shown on a row is the unweighted mean
    of its constituent confidences as double arithmetic computes it: the
    confidences are added from left to right, starting from 0, and the sum
    is divided by their number, every operation rounded to the nearest
    double.  A line item takes the seven confidences of description,
    origin HS code, quantity, unit price, total price, unit weight and tax
    percent; a box the five of box number, length, width, height and gross
    weight.  When every constituent lies in [0,1] the result lies in [0,1]
    and differs from the exact arithmetic mean by at most 2^-50.  The chip
    is [success] iff the computed score is at least the double 0.9,
    [warning] iff it is at least the double 0.7 and below the double 0.9,
    and [error] otherwise (a score that is not a number included). *)
Theorem row_confidence_is_rounded_mean_with_tiers :
  (forall item : LineItem,
      average (lineItemConfs item) =
        div64
          (add64 (add64 (add64 (add64 (add64 (add64 (add64 (Fin 0)
             (Fin (confidence (li_description item))))
             (Fin (confidence (hs_code_origin item))))
             (Fin (confidence (li_quantity item))))
             (Fin (confidence (unit_price_usd item))))
             (Fin (confidence (total_price_usd item))))
             (Fin (confidence (unit_weight_kg item))))
             (Fin (confidence (igst_percent item))))
          (Fin 7))
  /\ (forall box : Box,
         average (boxConfs box) =
           div64
             (add64 (add64 (add64 (add64 (add64 (Fin 0)
                (Fin (confidence (box_number box))))
                (Fin (confidence (length_cm box))))
                (Fin (confidence (width_cm box))))
                (Fin (confidence (height_cm box))))
                (Fin (confidence (gross_weight_kg box))))
             (Fin 5))
  /\ (forall item : LineItem,
         (forall c, In c (lineItemConfs item) -> 0 <= c <= 1) ->
         exists a,
           average (lineItemConfs item) = Fin a
           /\ 0 <= a <= 1
           /\ let mean :=
                (confidence (li_description item) + confidence (hs_code_origin item)
                 + confidence (li_quantity item) + confidence (unit_price_usd item)
                 + confidence (total_price_usd item) + confidence (unit_weight_kg item)
                 + confidence (igst_percent item)) / 7 in
              mean - pow2 (-50) <= a <= mean + pow2 (-50))
  /\ (forall box : Box,
         (forall c, In c (boxConfs box) -> 0 <= c <= 1) ->
         exists a,
           average (boxConfs box) = Fin a
           /\ 0 <= a <= 1
           /\ let mean :=
                (confidence (box_number box) + confidence (length_cm box)
                 + confidence (width_cm box) + confidence (height_cm box)
                 + confidence (gross_weight_kg box)) / 5 in
              mean - pow2 (-50) <= a <= mean + pow2 (-50))
  /\ (forall idx item,
         chip_color (lr_conf (lineItemRow idx item))
         = getConfidenceColor (average (lineItemConfs item)))
  /\ (forall multi box,
         chip_color (br_conf (boxRow multi box))
         = getConfidenceColor (average (boxConfs box)))
  /\ (forall score : Q,
         (getConfidenceColor (Fin score) = success <-> lit09 <= score)
         /\ (getConfidenceColor (Fin score) = warning <-> lit07 <= score /\ score < lit09)
         /\ (getConfidenceColor (Fin score) = error <-> score < lit07))
  /\ (lit09 == 8106479329266893 # 9007199254740992
      /\ lit07 == 3152519739159347 # 4503599627370496)
  /\ (getConfidenceColor NaN = error
      /\ getConfidenceColor (Inf false) = success
      /\ getConfidenceColor (Inf true) = error).
Proof.
  split; [|split; [|split; [|split; [|split; [|split; [|split; [|split]]]]]]].
  - intro item. reflexivity.
  - intro box. reflexivity.
  - intros item H.
    destruct (average_near_mean (lineItemConfs item)) as (a & Ha & A0 & A1 & A2 & A3);
      [discriminate | cbn; lia | exact H |].
    exists a. split; [exact Ha|]. split; [split; assumption|]. cbn zeta.
    unfold lineItemConfs in A2, A3. cbn [fold_left List.length] in A2, A3.
    change (inject_Z (Z.of_nat 7)) with 7 in A2, A3.
    split; [eapply Qle_trans; [|exact A2] | eapply Qle_trans; [exact A3|]];
      match goal with |- ?l <= ?r => assert (E : l == r) by field; rewrite E; apply Qle_refl end.
  - intros box H.
    destruct (average_near_mean (boxConfs box)) as (a & Ha & A0 & A1 & A2 & A3);
      [discriminate | cbn; lia | exact H |].
    exists a. split; [exact Ha|]. split; [split; assumption|]. cbn zeta.
    unfold boxConfs in A2, A3. cbn [fold_left List.length] in A2, A3.
    change (inject_Z (Z.of_nat 5)) with 5 in A2, A3.
    split; [eapply Qle_trans; [|exact A2] | eapply Qle_trans; [exact A3|]];
      match goal with |- ?l <= ?r => assert (E : l == r) by field; rewrite E; apply Qle_refl end.
  - reflexivity.
  - reflexivity.
  - apply confidence_color_of_finite.
  - destruct confidence_literals as (H9 & H7 & _). split; assumption.
  - repeat split.
Qed.

(** C5 (counterexample).  A box whose five confidences are the doubles
    written 0.9, 1, 0.95, 0.8 and 0.85: their exact mean is 0.9, but the
    rounded additions give 0.8999999999999998, which is not the mean and
    lies below the threshold, so the chip is [warning]. *)
Lemma rounded_mean_differs_from_exact_mean :
  let box := {| box_number := mkCV (VNum (Fin 1)) (round64Q (9 # 10));
                length_cm := mkCV (VNum (Fin 40)) 1;
                width_cm := mkCV (VNum (Fin 30)) (round64Q (95 # 100));
                height_cm := mkCV (VNum (Fin 20)) (round64Q (8 # 10));
                gross_weight_kg := mkCV (VNum (Fin 5)) (round64Q (85 # 100));
                net_weight_kg := blank; items := []; destination_id := None;
                receiver := None |} in
  let mean := (confidence (box_number box) + confidence (length_cm box)
               + confidence (width_cm box) + confidence (height_cm box)
               + confidence (gross_weight_kg box)) / 5 in
  mean == 9 # 10
  /\ (exists a, average (boxConfs box) = Fin a
                /\ a == 8106479329266891 # 9007199254740992
                /\ ~ a == mean
                /\ a < 9 # 10)
  /\ chip_color (br_conf (boxRow false box)) = warning.
Proof.
  cbn zeta. split; [vm_compute; reflexivity|]. split.
  - eexists. split; [vm_compute; reflexivity|].
    split; [vm_compute; reflexivity|].
    split; [intro H; vm_compute in H; discriminate H | vm_compute; reflexivity].
  - vm_compute. reflexivity.
Qed.

End Confidence.

Section Destinations.
Import JS Schema Results Samples.



End Destinations.

(** ** Number formatting *)

Section Formatting.
Import JS Schema Results Samples.

Lemma allChars_app (p : ascii -> bool) (a b : string) :
  allChars p (a ++ b) = allChars p a && allChars p b.
Proof.
  induction a as [|c a IH]; cbn [append allChars].
  - reflexivity.
  - rewrite IH, andb_assoc. reflexivity.
Qed.

Lemma length_append (a b : string) :
  String.length (a ++ b) = (String.length a + String.length b)%nat.
Proof.
  induction a as [|c a IH]; cbn [append String.length]; [reflexivity | now rewrite IH].
Qed.

Lemma uint_digits (d : Decimal.uint) :
  allChars isDigit (NilEmpty.string_of_uint d) = true.
Proof. induction d; cbn [NilEmpty.string_of_uint allChars]; try rewrite IHd; reflexivity. Qed.

Lemma natDigits_digits (n : N) : allChars isDigit (natDigits n) = true.
Proof.
  unfold natDigits, NilZero.string_of_uint.
  destruct (N.to_uint n) eqn:E; try reflexivity;
    rewrite <- E at 1; rewrite E; apply uint_digits.
Qed.

Lemma natDigits_nonempty (n : N) : natDigits n <> "".
Proof.
  unfold natDigits, NilZero.string_of_uint.
  destruct (N.to_uint n); cbn; discriminate.
Qed.

Lemma digitChar_digit (d : N) : (d < 10)%N -> isDigit (digitChar d) = true.
Proof.
  intro H.
  assert (Hd : (d = 0 \/ d = 1 \/ d = 2 \/ d = 3 \/ d = 4 \/ d = 5 \/ d = 6
                \/ d = 7 \/ d = 8 \/ d = 9)%N) by lia.
  destruct Hd as [-> | [-> | [-> | [-> | [-> | [-> | [-> | [-> | [-> | ->]]]]]]]]];
    reflexivity.
Qed.

Lemma fixedDigits_length (k : nat) : forall n, String.length (fixedDigits k n) = k.
Proof.
  induction k as [|k IH]; intro n; cbn [fixedDigits].
  - reflexivity.
  - rewrite length_append, IH. cbn. lia.
Qed.

Lemma fixedDigits_digits (k : nat) : forall n, allChars isDigit (fixedDigits k n) = true.
Proof.
  induction k as [|k IH]; intro n; cbn [fixedDigits].
  - reflexivity.
  - rewrite allChars_app, IH. cbn [allChars andb].
    rewrite digitChar_digit; [reflexivity|].
    apply N.mod_lt. discriminate.
Qed.

Lemma digit_is_digit_or_comma (s : string) :
  allChars isDigit s = true -> allChars isDigitOrComma s = true.
Proof.
  induction s as [|c s IH]; cbn [allChars]; [reflexivity|].
  intro H. apply andb_true_iff in H as [Hc Hs].
  unfold isDigitOrComma at 1. rewrite Hc, (IH Hs). reflexivity.
Qed.

Lemma groupThousands_chars (s : string) :
  allChars isDigit s = true -> allChars isDigitOrComma (groupThousands s) = true.
Proof.
  induction s as [|c s IH]; cbn [groupThousands allChars]; [reflexivity|].
  intro H. apply andb_true_iff in H as [Hc Hs].
  unfold isDigitOrComma at 1. rewrite Hc. cbn [orb andb].
  destruct (Nat.ltb 0 (String.length s) && Nat.eqb (Nat.modulo (String.length s) 3) 0)%bool.
  - cbn [allChars]. rewrite (IH Hs). reflexivity.
  - apply IH. exact Hs.
Qed.

Lemma groupThousands_nonempty (s : string) : s <> "" -> groupThousands s <> "".
Proof. destruct s; [congruence | cbn; discriminate]. Qed.

(** A finite number printed with [S k] fraction digits has exactly that
    many decimals. *)
Lemma toLocaleString_decimals (k : nat) (q : Q) :
  hasDecimals (S k) (toLocaleString_enUS (S k) (Fin q)).
Proof.
  unfold toLocaleString_enUS, hasDecimals.
  set (sc := scaledRound (S k) q). set (p := (10 ^ N.of_nat (S k))%N).
  exists (if Qltb q 0 then "-" else ""),
         (groupThousands (natDigits (sc / p))),
         (fixedDigits (S k) (sc mod p)).
  split; [reflexivity|]. split; [destruct (Qltb q 0); tauto|].
  split; [apply groupThousands_nonempty, natDigits_nonempty|].
  split; [apply groupThousands_chars, natDigits_digits|].
  split; [apply fixedDigits_length | apply fixedDigits_digits].
Qed.

Lemma isBlank_iff (x : JSValue) :
  isBlank x = true <-> x = VNull \/ x = VUndefined \/ x = VStr "".
Proof.
  destruct x as [| | s | n]; cbn.
  - tauto.
  - tauto.
  - split.
    + intro H. apply String.eqb_eq in H. subst. tauto.
    + intros [H | [H | H]]; try discriminate H. injection H as ->. reflexivity.
  - split; [discriminate|]. intros [H | [H | H]]; discriminate H.
Qed.

Lemma suffix_kg_not_literal (body : string) :
  body ++ " kg" <> "NaN" /\ body ++ " kg" <> "null".
Proof.
  destruct body as [|c1 [|c2 [|c3 [|c4 [|c5 r]]]]]; cbn; split; intro H;
    try discriminate H; injection H; intros; discriminate.
Qed.

Lemma fmtCurrency_cases (x : JSValue) :
  fmtCurrency x = "-" \/ exists body, fmtCurrency x = String "$" body.
Proof.
  unfold fmtCurrency. destruct (isBlank x); [left; reflexivity|].
  destruct (isNaN (toNum x)); [left; reflexivity|].
  right. eexists. reflexivity.
Qed.

Lemma fmtWeight_cases (x : JSValue) :
  fmtWeight x = "-" \/ exists body, fmtWeight x = body ++ " kg".
Proof.
  unfold fmtWeight. destruct (isBlank x); [left; reflexivity|].
  destruct (isNaN (toNum x)); [left; reflexivity|].
  right. eexists. reflexivity.
Qed.

(** C9 (as amended).  For an input that is, or as a string parses to, a
    finite number, the monetary formatter returns "$" followed by the
    grouped amount with exactly two decimals, and the weight formatter the
    number with exactly one decimal followed by " kg".  Both return "-" for
    null, undefined, the empty string and for input that reads as NaN, and
    neither ever returns "NaN" or "null".  The generic accessor returns "-"
    for null, undefined and the empty string only; every other value is
    shown as [String(value)], so a non-empty string is passed through
    unchanged. *)
Theorem formatters_fixed_decimals_or_placeholder :
  (forall x q, isBlank x = false -> toNum x = Fin q ->
      exists body, fmtCurrency x = "$" ++ body /\ hasDecimals 2 body)
  /\ (forall x q, isBlank x = false -> toNum x = Fin q ->
         exists body, fmtWeight x = body ++ " kg" /\ hasDecimals 1 body)
  /\ (forall x, x = VNull \/ x = VUndefined \/ x = VStr "" \/ toNum x = NaN ->
         fmtCurrency x = "-" /\ fmtWeight x = "-")
  /\ (forall x, fmtCurrency x <> "NaN" /\ fmtCurrency x <> "null"
                /\ fmtWeight x <> "NaN" /\ fmtWeight x <> "null")
  /\ (forall cv, value cv = VNull \/ value cv = VUndefined \/ value cv = VStr "" ->
         v cv = "-")
  /\ (forall cv, isBlank (value cv) = false -> v cv = String_of (value cv))
  /\ (forall cv s, value cv = VStr s -> s <> "" -> v cv = s).
Proof.
  split; [|split; [|split; [|split; [|split; [|split]]]]].
  - intros x q Hb Hn. unfold fmtCurrency. rewrite Hb, Hn. cbn [isNaN].
    eexists. split; [reflexivity | apply toLocaleString_decimals].
  - intros x q Hb Hn. unfold fmtWeight. rewrite Hb, Hn. cbn [isNaN].
    eexists. split; [reflexivity | apply toLocaleString_decimals].
  - intros x H. unfold fmtCurrency, fmtWeight.
    destruct (isBlank x) eqn:Hb; [split; reflexivity|].
    destruct H as [H | [H | [H | H]]].
    + subst x. discriminate Hb.
    + subst x. discriminate Hb.
    + subst x. discriminate Hb.
    + rewrite H. split; reflexivity.
  - intro x. split; [|split; [|split]].
    + destruct (fmtCurrency_cases x) as [-> | [b ->]]; discriminate.
    + destruct (fmtCurrency_cases x) as [-> | [b ->]]; discriminate.
    + destruct (fmtWeight_cases x) as [-> | [w ->]];
        [discriminate | apply suffix_kg_not_literal].
    + destruct (fmtWeight_cases x) as [-> | [w ->]];
        [discriminate | apply suffix_kg_not_literal].
  - intros cv H. unfold v. apply isBlank_iff in H. rewrite H. reflexivity.
  - intros cv H. unfold v. rewrite H. reflexivity.
  - intros cv s Hv Hs. unfold v. rewrite Hv. cbn [isBlank String_of].
    destruct (String.eqb_spec s ""); [contradiction | reflexivity].
Qed.

(** C9 (counterexample).  A text that does not read as a number is not
    replaced by the placeholder by the generic accessor, and the texts
    "NaN" and "null" come out literally. *)
Lemma accessor_passes_non_numeric_text :
  toNum (VStr "n/a") = NaN
  /\ fmtCurrency (VStr "n/a") = "-"
  /\ v (mkCV (VStr "n/a") (1 # 2)) = "n/a"
  /\ v (mkCV (VStr "n/a") (1 # 2)) <> "-"
  /\ v (mkCV (VStr "NaN") (1 # 2)) = "NaN"
  /\ v (mkCV (VStr "null") (1 # 2)) = "null".
Proof.
  repeat split; try reflexivity. discriminate.
Qed.

End Formatting.

(** ** The theorems at concrete inputs *)

Section Instances.
Import JS Schema Results Upload App Samples.

Example format_examples :
  fmtCurrency (VStr "1234.5") = "$1,234.50"
  /\ fmtCurrency (VNum (Fin (1 # 8))) = "$0.13"
  /\ fmtCurrency (VStr "12abc") = "$12.00"
  /\ fmtCurrency (VStr "abc") = "-"
  /\ fmtCurrency VNull = "-"
  /\ fmtWeight (VNum (Fin (185 # 10))) = "18.5 kg"
  /\ fmtWeight (VStr "") = "-"
  /\ v (number (185 # 10)) = "18.5"
  /\ v blank = "-".
Proof. vm_compute. repeat split. Qed.

Example estimator_first_ticks :
  emitted 0 [0; 150; 300]%Z = [tick 0 0; tick 150 (tick 0 0); tick 300 (tick 150 (tick 0 0))]
  /\ tick 0 0 == 6 # 10
  /\ tick 20000 (849 # 10) == 85
  /\ tick 20000 85 == 85.
Proof. repeat split. Qed.


Lemma only_confirmed_success_sets_100_witness :
  let s := fst (handleProcess [invoicePdf] None 0 initialState) in
  let e := ExtractSettled (Fulfilled (jobWith None)) in
  ~ progress s == 100
  /\ progress (fst (step s e)) == 100
  /\ exists jobStatus,
       e = ExtractSettled (Fulfilled jobStatus)
       /\ isFailed (js_result jobStatus) = false.
Proof.
  cbn zeta.
  assert (H0 : ~ progress (fst (handleProcess [invoicePdf] None 0 initialState)) == 100)
    by (intro H; discriminate H).
  assert (H1 : progress (fst (step (fst (handleProcess [invoicePdf] None 0 initialState))
                                   (ExtractSettled (Fulfilled (jobWith None))))) == 100)
    by reflexivity.
  split; [exact H0|]. split; [exact H1|].
  exact (proj2 (proj2 (proj2 only_confirmed_success_sets_100)) _ _ H0 H1).
Defined.

Lemma null_result_takes_success_path_witness :
  js_result (jobWith None) = None
  /\ progress (fst (step (fst (run initialState
                                 (Process [invoicePdf] None 0 :: map IntervalTick [150; 300]%Z)))
                         (ExtractSettled (Fulfilled (jobWith None))))) = 100.
Proof.
  split; [reflexivity|].
  exact (proj1 (proj2 (proj2
           (null_result_takes_success_path initialState [invoicePdf] None 0%Z
              [150; 300]%Z (jobWith None) eq_refl)))).
Defined.

Lemma receiver_is_ship_to_iff_key_field_truthy_witness :
  let result := resultOf (invoiceFor acme blankAddress) (packingListWith None) in
  (exists s, In (VStr s) (keyValues (ship_to (invoice result))) /\ s <> "")
  /\ getReceiverAddress result = acme.
Proof.
  cbn zeta.
  assert (H : exists s, In (VStr s) (keyValues acme) /\ s <> "").
  { exists "Acme Imports". split; [left; reflexivity | discriminate]. }
  split; [exact H|].
  exact (proj1 (proj2 (proj2 (proj2
           (receiver_is_ship_to_iff_key_field_truthy
              (resultOf (invoiceFor acme blankAddress) (packingListWith None))))))
           H).
Defined.

Lemma row_confidence_is_rounded_mean_with_tiers_witness :
  (forall c, In c (lineItemConfs sampleItem) -> 0 <= c <= 1)
  /\ (exists a, average (lineItemConfs sampleItem) = Fin a /\ 0 <= a <= 1)
  /\ (forall c, In c (boxConfs sampleBox) -> 0 <= c <= 1)
  /\ (exists a, average (boxConfs sampleBox) = Fin a /\ 0 <= a <= 1)
  /\ lit09 <= 1
  /\ getConfidenceColor (Fin 1) = success.
Proof.
  assert (Hi : forall c, In c (lineItemConfs sampleItem) -> 0 <= c <= 1).
  { intros c H. cbn in H.
    destruct H as [<- | [<- | [<- | [<- | [<- | [<- | [<- | []]]]]]]];
      split; apply Qle_bool_iff; reflexivity. }
  assert (Hb : forall c, In c (boxConfs sampleBox) -> 0 <= c <= 1).
  { intros c H. cbn in H.
    destruct H as [<- | [<- | [<- | [<- | [<- | []]]]]];
      split; apply Qle_bool_iff; reflexivity. }
  assert (H1 : lit09 <= 1) by (apply Qle_bool_iff; vm_compute; reflexivity).
  split; [exact Hi|].
  split.
  { destruct (proj1 (proj2 (proj2 row_confidence_is_rounded_mean_with_tiers)) sampleItem Hi)
      as (a & Ha & Hr & _).
    exists a. split; assumption. }
  split; [exact Hb|].
  split.
  { destruct (proj1 (proj2 (proj2 (proj2 row_confidence_is_rounded_mean_with_tiers)))
                sampleBox Hb) as (a & Ha & Hr & _).
    exists a. split; assumption. }
  split; [exact H1|].
  exact (proj2 (proj1 (proj1 (proj2 (proj2 (proj2 (proj2 (proj2 (proj2
           row_confidence_is_rounded_mean_with_tiers)))))) 1)) H1).
Defined.


Lemma auto_currency_clears_exchange_rate_witness :
  let o := applyEdit (ExchangeRateChange "83.5") (applyEdit (CurrencyChange INR) DEFAULT_OPTIONS) in
  reachable o
  /\ rateClearedOnAuto o
  /\ offered o (CurrencyChange auto) = true
  /\ rateClearedOnAuto (applyEdit (CurrencyChange auto) o)
  /\ exchange_rate (applyEdit (CurrencyChange auto) o) = None.
Proof.
  cbn zeta.
  assert (Hr : reachable (applyEdit (ExchangeRateChange "83.5")
                            (applyEdit (CurrencyChange INR) DEFAULT_OPTIONS))).
  { apply reach_edit; [|reflexivity]. apply reach_edit; [|reflexivity]. apply reach_default. }
  pose proof (proj2 (proj2 (proj2 (proj2 (proj2 (proj2
                auto_currency_clears_exchange_rate))))) _ Hr) as Hinv.
  split; [exact Hr|]. split; [exact Hinv|]. split; [reflexivity|].
  split.
  - exact (proj1 (proj2 (proj2 (proj2 (proj2 (proj2
             auto_currency_clears_exchange_rate))))) _ (CurrencyChange auto) Hinv eq_refl).
  - reflexivity.
Defined.

Lemma retry_replays_submission_or_returns_to_upload_witness :
  let es := [IntervalTick 150; ExtractSettled (Rejected (ThrownError "timeout of 180000ms exceeded"))] in
  let s1 := fst (run initialState
                   (Process [invoicePdf; packingPdf] (Some DEFAULT_OPTIONS) 0 :: es)) in
  [invoicePdf; packingPdf] <> []
  /\ forallb keepsSubmission es = true
  /\ snd (step s1 (Retry 9000)) = [ExtractDocuments [invoicePdf; packingPdf] (Some DEFAULT_OPTIONS)]
  /\ files initialState = []
  /\ view (fst (step initialState (Retry 0))) = upload.
Proof.
  cbn zeta.
  assert (Hne : [invoicePdf; packingPdf] <> []) by discriminate.
  split; [exact Hne|]. split; [reflexivity|].
  split.
  - exact (proj1 (proj2
             (proj1 retry_replays_submission_or_returns_to_upload initialState
                [invoicePdf; packingPdf] (Some DEFAULT_OPTIONS) 0%Z
                [IntervalTick 150; ExtractSettled (Rejected (ThrownError "timeout of 180000ms exceeded"))]
                9000%Z Hne eq_refl))).
  - split; [reflexivity|].
    exact (proj1 (proj2
             (proj2 retry_replays_submission_or_returns_to_upload initialState 0%Z eq_refl))).
Defined.

Lemma formatters_fixed_decimals_or_placeholder_witness :
  isBlank (VStr "1234.5") = false
  /\ toNum (VStr "1234.5") = Fin (12345 # 10)
  /\ (exists body, fmtCurrency (VStr "1234.5") = "$" ++ body /\ hasDecimals 2 body)
  /\ (exists body, fmtWeight (VStr "1234.5") = body ++ " kg" /\ hasDecimals 1 body)
  /\ fmtCurrency (VStr "abc") = "-"
  /\ v (text "Rotterdam") = "Rotterdam".
Proof.
  assert (Hb : isBlank (VStr "1234.5") = false) by reflexivity.
  assert (Hn : toNum (VStr "1234.5") = Fin (12345 # 10)) by reflexivity.
  split; [exact Hb|]. split; [exact Hn|].
  split; [exact (proj1 formatters_fixed_decimals_or_placeholder _ _ Hb Hn)|].
  split; [exact (proj1 (proj2 formatters_fixed_decimals_or_placeholder) _ _ Hb Hn)|].
  split.
  - exact (proj1 (proj1 (proj2 (proj2 formatters_fixed_decimals_or_placeholder))
                    (VStr "abc") (or_intror (or_intror (or_intror eq_refl))))).
  - apply (proj2 (proj2 (proj2 (proj2 (proj2 (proj2
             formatters_fixed_decimals_or_placeholder))))) (text "Rotterdam") "Rotterdam");
      [reflexivity | discriminate].
Defined.

End Instances.

(* ===================================================================== *)
(** * Further properties of the sources *)
(* ===================================================================== *)

(** ** The checkpoint table and the speed of the estimator *)

Section Checkpoints.
Import App.

Lemma currentStepAt_cases (elapsed : Z) :
  ((elapsed < 1500)%Z /\ currentStepAt elapsed = step0)
  \/ ((1500 <= elapsed < 4000)%Z /\ nth_error steps 1 = Some (currentStepAt elapsed))
  \/ ((4000 <= elapsed < 7000)%Z /\ nth_error steps 2 = Some (currentStepAt elapsed))
  \/ ((7000 <= elapsed < 12000)%Z /\ nth_error steps 3 = Some (currentStepAt elapsed))
  \/ ((12000 <= elapsed)%Z /\ nth_error steps 4 = Some (currentStepAt elapsed)).
Proof.
  unfold currentStepAt, steps. cbn [fold_left delay step0 nth_error].
  destruct (Z.leb_spec 0 elapsed), (Z.leb_spec 1500 elapsed), (Z.leb_spec 4000 elapsed),
    (Z.leb_spec 7000 elapsed), (Z.leb_spec 12000 elapsed); try lia;
    try (left; split; [lia | reflexivity]);
    try (right; left; split; [lia | reflexivity]);
    try (right; right; left; split; [lia | reflexivity]);
    try (right; right; right; left; split; [lia | reflexivity]);
    try (right; right; right; right; split; [lia | reflexivity]).
Qed.

(** X1.  The checkpoint in force is the last one of the table whose delay
    has elapsed: 10 before 1.5 s (also when the clock reads a negative
    elapsed time), 30 up to 4 s, 55 up to 7 s, 70 up to 12 s and 85 from
    then on; so the target never goes down as time passes. *)
Theorem checkpoint_target_by_elapsed_time :
  (forall elapsed : Z,
      target (currentStepAt elapsed) =
        if (elapsed <? 1500)%Z then 10
        else if (elapsed <? 4000)%Z then 30
        else if (elapsed <? 7000)%Z then 55
        else if (elapsed <? 12000)%Z then 70
        else 85)
  /\ (forall e1 e2 : Z,
         (e1 <= e2)%Z -> target (currentStepAt e1) <= target (currentStepAt e2)).
Proof.
  assert (P : forall elapsed : Z,
             target (currentStepAt elapsed) =
               if (elapsed <? 1500)%Z then 10
               else if (elapsed <? 4000)%Z then 30
               else if (elapsed <? 7000)%Z then 55
               else if (elapsed <? 12000)%Z then 70
               else 85).
  { intro e.
    destruct (currentStepAt_cases e) as [[H E] | [[H E] | [[H E] | [[H E] | [H E]]]]];
      [rewrite E | unfold steps in E; cbn [nth_error] in E; injection E as <- ..];
      cbn [target step0];
      destruct (Z.ltb_spec e 1500), (Z.ltb_spec e 4000), (Z.ltb_spec e 7000),
        (Z.ltb_spec e 12000); try lia; reflexivity. }
  split; [exact P|].
  intros e1 e2 Hle. rewrite (P e1), (P e2).
  destruct (Z.ltb_spec e1 1500), (Z.ltb_spec e1 4000), (Z.ltb_spec e1 7000),
    (Z.ltb_spec e1 12000), (Z.ltb_spec e2 1500), (Z.ltb_spec e2 4000),
    (Z.ltb_spec e2 7000), (Z.ltb_spec e2 12000); try lia;
    apply Qle_bool_iff; reflexivity.
Qed.

(** In double arithmetic a callback gains at least 0.29 until the target
    is met (the rounding of the sum loses less than [2^-47]). *)
Lemma updater64_gains (st : ProgressStep) (prev : Q) :
  In st steps -> 0 <= prev -> prev <= target st ->
  0 <= progressUpdater64 st prev
  /\ progressUpdater64 st prev <= target st
  /\ (progressUpdater64 st prev == target st
      \/ prev + (29 # 100) <= progressUpdater64 st prev).
Proof.
  intros Hin H0 Hle. destruct (step_target_bounds st Hin) as [Ht10 Ht85].
  unfold progressUpdater64. destruct (JS.Qltb prev (target st)) eqn:E.
  - apply Qltb_true in E. cbn zeta.
    set (r := Float64.round64Q (Float64.round64Q (target st - prev) * lit006)).
    pose proof (Math_max_lower lit03 r) as Hinc.
    assert (H03 : 299 # 1000 <= lit03) by (apply Qle_bool_iff; vm_compute; reflexivity).
    assert (Hsum : prev + (29 # 100) <= Float64.round64Q (prev + JS.Math_max lit03 r)).
    { apply Qle_trans with (Float64.round64Q (prev + (299 # 1000)));
        [|apply round64Q_mono; lra].
      destruct (round64Q_error (prev + (299 # 1000)) 6 ltac:(lia)) as [E1 _].
      - assert (H7 : Float64.pow2 (6 + 1) == 128) by reflexivity. rewrite H7. lra.
      - assert (H7 : Float64.pow2 (6 + 1) == 128) by reflexivity. rewrite H7. lra.
      - assert (Heps : Float64.pow2 (6 - 53) <= 1 # 1000)
          by (apply Qle_bool_iff; vm_compute; reflexivity).
        lra. }
    unfold JS.Math_min.
    destruct (Qle_bool (target st) (Float64.round64Q (prev + JS.Math_max lit03 r))) eqn:Em.
    + split; [lra|]. split; [apply Qle_refl | left; reflexivity].
    + apply Qle_bool_false in Em.
      split; [lra|]. split; [lra | right; exact Hsum].
  - apply Qltb_false in E. split; [exact H0|]. split; [exact Hle | left; lra].
Qed.

Lemma iterated_updater64_gains (st : ProgressStep) (prev : Q) (n : nat) :
  In st steps -> 0 <= prev -> prev <= target st ->
  0 <= Nat.iter n (progressUpdater64 st) prev
  /\ Nat.iter n (progressUpdater64 st) prev <= target st
  /\ (Nat.iter n (progressUpdater64 st) prev == target st
      \/ prev + (29 # 100) * inject_Z (Z.of_nat n)
         <= Nat.iter n (progressUpdater64 st) prev).
Proof.
  intros Hin H0 Hle. induction n as [|n (IH0 & IHle & IHgain)].
  - change (Nat.iter 0 (progressUpdater64 st) prev) with prev.
    change (inject_Z (Z.of_nat 0)) with 0.
    split; [exact H0|]. split; [exact Hle | right; lra].
  - change (Nat.iter (S n) (progressUpdater64 st) prev)
      with (progressUpdater64 st (Nat.iter n (progressUpdater64 st) prev)).
    destruct (updater64_gains st (Nat.iter n (progressUpdater64 st) prev) Hin IH0 IHle)
      as (H0' & Hle' & Hg).
    split; [exact H0'|]. split; [exact Hle'|].
    destruct Hg as [Heq | Hg]; [left; exact Heq|].
    destruct IHgain as [Heq | IHgain].
    + left. apply Qle_antisym; [exact Hle' | lra].
    + right. rewrite Nat2Z.inj_succ. unfold Z.succ. rewrite inject_Z_plus.
      change (inject_Z 1) with 1. lra.
Qed.

(** X2.  In double arithmetic, while the checkpoint does not change, every
    callback gains at least 0.29 and never passes the target, so from a
    value between 0 and the target the shown value is exactly the target
    after at most (target - current) / 0.29 callbacks, and stays there. *)
Theorem rounded_estimator_reaches_target :
  forall (st : ProgressStep) (prev : Q) (n : nat),
    In st steps ->
    0 <= prev -> prev <= target st ->
    target st <= prev + (29 # 100) * inject_Z (Z.of_nat n) ->
    Nat.iter n (progressUpdater64 st) prev == target st
    /\ progressUpdater64 st (Nat.iter n (progressUpdater64 st) prev)
       = Nat.iter n (progressUpdater64 st) prev.
Proof.
  intros st prev n Hin H0 Hle Hn.
  destruct (iterated_updater64_gains st prev n Hin H0 Hle) as (_ & Hup & Hg).
  assert (Heq : Nat.iter n (progressUpdater64 st) prev == target st).
  { destruct Hg as [Heq | Hg]; [exact Heq|]. apply Qle_antisym; [exact Hup | lra]. }
  split; [exact Heq|].
  unfold progressUpdater64 at 1.
  assert (Hf : JS.Qltb (Nat.iter n (progressUpdater64 st) prev) (target st) = false)
    by (apply Qltb_false; rewrite Heq; apply Qle_refl).
  rewrite Hf. reflexivity.
Qed.

(** The rounding is visible in the count: from 52 towards 55 exact
    arithmetic arrives with the tenth callback, doubles with the
    eleventh. *)
Lemma callbacks_from_52_to_55 :
  let st := {| target := 55; message := "Analyzing invoice with AI..."; delay := 4000 |} in
  Nat.iter 10 (progressUpdater st) 52 == 55
  /\ Nat.iter 10 (progressUpdater64 st) 52 < 55
  /\ Nat.iter 11 (progressUpdater64 st) 52 == 55.
Proof.
  cbn zeta. repeat split; vm_compute; reflexivity.
Qed.

End Checkpoints.

(** ** The orchestrator: timers, failures, success, downloads *)

Section Lifecycle.
Import Schema App.

(** Without a live timer the interval callback changes nothing. *)
Lemma ticks_without_timer (nows : list Z) :
  forall s, progressIntervalRef s = None -> run s (map IntervalTick nows) = (s, []).
Proof.
  induction nows as [|now rest IH]; intros s Hnone; cbn [map run step].
  - reflexivity.
  - assert (Hs : onInterval now s = s) by (unfold onInterval; rewrite Hnone; reflexivity).
    rewrite Hs, (IH s Hnone). reflexivity.
Qed.

(** X3.  Reset from any state: the view is the upload view, the stored
    files, options, result, job id, error, progress and progress message
    are cleared and the timer is cancelled; timer callbacks that still
    arrive change nothing, and a download request opens nothing. *)
Theorem reset_clears_job_and_cancels_timer :
  forall (s : State) (nows : list Z) (t : DownloadType),
    let s' := fst (step s Reset) in
    snd (step s Reset) = []
    /\ view s' = upload /\ files s' = [] /\ lastOptions s' = None
    /\ progress s' = 0 /\ progressMessage s' = "" /\ error s' = None
    /\ result s' = None /\ jobId s' = "" /\ progressIntervalRef s' = None
    /\ toast s' = toast s
    /\ render s' = UploadScreen
    /\ run s' (map IntervalTick nows) = (s', [])
    /\ snd (step s' (Download t)) = [].
Proof.
  intros s nows t s'. subst s'. cbn [step fst snd].
  repeat split. apply ticks_without_timer. reflexivity.
Qed.

(** X4.  Once the extraction call has settled, either way, the timer is
    cancelled: later timer callbacks leave the state, and so the shown
    progress, untouched. *)
Theorem settlement_cancels_timer :
  forall (s : State) (outcome : Settled) (nows : list Z),
    pending s <> O ->
    let s' := fst (step s (ExtractSettled outcome)) in
    progressIntervalRef s' = None
    /\ pending s' = Nat.pred (pending s)
    /\ run s' (map IntervalTick nows) = (s', [])
    /\ progressTrace s' nows = map (fun _ => progress s') nows.
Proof.
  intros s outcome nows Hp s'.
  assert (Hnone : progressIntervalRef s' = None).
  { subst s'. cbn [step]. destruct (pending s) eqn:E; [congruence|].
    destruct outcome as [jobStatus | err]; cbn.
    - unfold onFulfilled. destruct (js_result jobStatus) as [er|]; [|reflexivity].
      destruct (String.eqb (er_status er) "failed"); reflexivity.
    - reflexivity. }
  split; [exact Hnone|]. split; [|split].
  - subst s'. cbn [step]. destruct (pending s) eqn:E; [congruence|].
    destruct outcome as [jobStatus | err]; cbn.
    + unfold onFulfilled. destruct (js_result jobStatus) as [er|];
        [destruct (String.eqb (er_status er) "failed")|]; cbn; rewrite E; reflexivity.
    + rewrite E. reflexivity.
  - apply ticks_without_timer. exact Hnone.
  - clear Hp. generalize dependent s'. intros s' Hnone.
    induction nows as [|now rest IH]; cbn [progressTrace map]; [reflexivity|].
    assert (Hs : onInterval now s' = s') by (unfold onInterval; rewrite Hnone; reflexivity).
    rewrite Hs, IH. reflexivity.
Qed.

(** X5.  A transport failure (the call rejects) during a run: nothing is
    scheduled, the processing view stays with the progress where the
    estimator left it, the timer is cancelled, the error and the error
    toast carry the message of the thrown [Error] (or the generic sentence
    for any other thrown value), no result or job id is stored, and the
    retry button is shown exactly when that message is not empty. *)
Theorem transport_failure_enters_error_state :
  forall (s : State) selectedFiles options (now : Z) (nows : list Z) (err : Thrown),
    let s1 := fst (run s (Process selectedFiles options now :: map IntervalTick nows)) in
    let r := step s1 (ExtractSettled (Rejected err)) in
    snd r = []
    /\ view (fst r) = processing
    /\ progress (fst r) = progress s1
    /\ progressIntervalRef (fst r) = None
    /\ error (fst r) = Some (thrownMessage err)
    /\ toast (fst r) = {| open := true; toast_message := thrownMessage err;
                          severity := sev_error |}
    /\ progressMessage (fst r) = "Processing failed."
    /\ result (fst r) = None /\ jobId (fst r) = ""
    /\ files (fst r) = selectedFiles /\ lastOptions (fst r) = options
    /\ retryOffered (fst r) = negb (String.eqb (thrownMessage err) "").
Proof.
  intros s selectedFiles options now nows err s1 r.
  pose proof (in_flight_state s selectedFiles options now nows) as F.
  cbn zeta in F. fold s1 in F.
  destruct F as (Hv & Hf & Ho & He & Hr & Hj & Ht & Hp).
  subst r. cbn [step]. rewrite Hp. cbn [onRejected fst snd].
  unfold retryOffered, render. cbn. rewrite Hv, Hf, Ho, Hr, Hj. cbn.
  destruct err as [m|]; cbn; repeat split.
  destruct (String.eqb m ""); reflexivity.
Qed.

(** X6.  A response whose result is present and not marked failed, during a
    run: progress is 100 with the label "Done!", the result and the job id
    of the response are stored, no error is recorded, a warning toast with
    the warnings joined by " | " is opened when there are warnings (the
    toast is left alone otherwise), and the only effect is the 500 ms
    timeout.  After that timeout the results screen shows that result when
    the result carries a warnings list; without one the results screen
    throws while rendering, since it reads the length of the list
    unguarded. *)
Theorem usable_result_reaches_results_screen :
  forall (s : State) selectedFiles options (now : Z) (nows : list Z)
         (jobStatus : JobStatus) (er : ExtractionResult),
    js_result jobStatus = Some er ->
    er_status er <> "failed" ->
    let s1 := fst (run s (Process selectedFiles options now :: map IntervalTick nows)) in
    let r := step s1 (ExtractSettled (Fulfilled jobStatus)) in
    let s3 := fst (step (fst r) ShowResultsTimeout) in
    snd r = [SetTimeoutShowResults 500]
    /\ progress (fst r) = 100
    /\ progressMessage (fst r) = "Done!"
    /\ result (fst r) = Some er
    /\ jobId (fst r) = job_id jobStatus
    /\ error (fst r) = None
    /\ progressIntervalRef (fst r) = None
    /\ view (fst r) = processing
    /\ toast (fst r) =
         match warnings er with
         | Some (w :: ws) =>
             {| open := true; toast_message := String.concat " | " (w :: ws);
                severity := sev_warning |}
         | _ => toast s
         end
    /\ render s3 =
         match warnings er with
         | Some _ => ResultsScreen er (job_id jobStatus)
         | None => ResultsSectionThrows
         end.
Proof.
  intros s selectedFiles options now nows jobStatus er Hres Hst s1 r s3.
  pose proof (in_flight_state s selectedFiles options now nows) as F.
  cbn zeta in F. fold s1 in F.
  destruct F as (Hv & Hf & Ho & He & Hr & Hj & Ht & Hp).
  assert (Hneq : String.eqb (er_status er) "failed" = false)
    by (apply String.eqb_neq; exact Hst).
  subst s3 r. cbn [step]. rewrite Hp. unfold onFulfilled. rewrite Hres, Hneq.
  cbn [fst snd]. unfold complete, render. rewrite Hres. cbn. rewrite Hv, He, Ht.
  repeat split; destruct (warnings er) as [[|w ws]|]; reflexivity.
Qed.

(** X7.  Downloads never change the state.  Nothing is opened while no job
    id is stored; otherwise exactly one window is opened, at
    /api/download/<job id>/<type>.  After a usable response the job id is
    the one of the response; after a failed result or a transport failure
    there is none, so nothing can be downloaded. *)
Theorem download_needs_stored_job_id :
  (forall (s : State) (t : DownloadType),
      fst (step s (Download t)) = s
      /\ (jobId s = "" -> snd (step s (Download t)) = [])
      /\ (jobId s <> "" ->
          snd (step s (Download t))
          = [WindowOpen ("/api/download/" ++ jobId s ++ "/" ++ downloadTypeName t)]))
  /\ (forall (s : State) selectedFiles options (now : Z) (nows : list Z)
             (outcome : Settled) (t : DownloadType),
         let s1 := fst (run s (Process selectedFiles options now :: map IntervalTick nows)) in
         let s2 := fst (step s1 (ExtractSettled outcome)) in
         match outcome with
         | Fulfilled jobStatus =>
             if isFailed (js_result jobStatus)
             then jobId s2 = "" /\ snd (step s2 (Download t)) = []
             else jobId s2 = job_id jobStatus
         | Rejected _ => jobId s2 = "" /\ snd (step s2 (Download t)) = []
         end).
Proof.
  split.
  - intros s t. cbn [step fst snd]. unfold handleDownload.
    split; [reflexivity|]. split.
    + intros ->. reflexivity.
    + intro Hne. apply String.eqb_neq in Hne. rewrite Hne. reflexivity.
  - intros s selectedFiles options now nows outcome t s1 s2.
    pose proof (in_flight_state s selectedFiles options now nows) as F.
    cbn zeta in F. fold s1 in F.
    destruct F as (Hv & Hf & Ho & He & Hr & Hj & Ht & Hp).
    subst s2. cbn [step]. rewrite Hp.
    destruct outcome as [jobStatus | err]; cbn.
    + unfold onFulfilled, isFailed.
      destruct (js_result jobStatus) as [er|]; [|reflexivity].
      destruct (String.eqb (er_status er) "failed"); cbn; [|reflexivity].
      unfold handleDownload. cbn. rewrite Hj. split; reflexivity.
    + unfold handleDownload. cbn. rewrite Hj. split; reflexivity.
Qed.

(** X8.  Where effects come from: every turn issues at most one effect; an
    extraction call is issued only by a submission, or by a retry with
    stored files (for those files and the stored options); the switch to
    the results view is scheduled only by a response that is not marked
    failed, always with a delay of 500 ms; a window is opened only by a
    download. *)
Theorem effects_have_one_origin :
  forall (s : State) (e : Event),
    (List.length (snd (step s e)) <= 1)%nat
    /\ (forall fs o, In (ExtractDocuments fs o) (snd (step s e)) ->
        (exists now, e = Process fs o now)
        \/ (exists now, e = Retry now /\ fs = files s /\ o = lastOptions s /\ fs <> []))
    /\ (forall ms, In (SetTimeoutShowResults ms) (snd (step s e)) ->
        ms = 500%Z /\ pending s <> O
        /\ exists jobStatus, e = ExtractSettled (Fulfilled jobStatus)
                             /\ isFailed (js_result jobStatus) = false)
    /\ (forall u, In (WindowOpen u) (snd (step s e)) -> exists t, e = Download t).
Proof.
  intros s e.
  destruct e as [fs0 o0 now | now | outcome | now | | | | t]; cbn [step snd].
  - cbn. split; [lia|]. split; [|split].
    + intros fs o [H | []]. injection H as <- <-. left. exists now. reflexivity.
    + intros ms [H | []]. discriminate H.
    + intros u [H | []]. discriminate H.
  - cbn. split; [lia|]. split; [|split]; intros; contradiction.
  - destruct (pending s) eqn:Ep.
    + cbn. split; [lia|]. split; [|split]; intros; contradiction.
    + destruct outcome as [jobStatus | err].
      * unfold onFulfilled, isFailed.
        destruct (js_result jobStatus) as [er|] eqn:Er.
        -- destruct (String.eqb (er_status er) "failed") eqn:Ef; cbn.
           ++ split; [lia|]. split; [|split]; intros; contradiction.
           ++ split; [lia|]. split; [|split].
              ** intros fs o [H | []]. discriminate H.
              ** intros ms [H | []]. injection H as <-.
                 split; [reflexivity|]. split; [discriminate|].
                 exists jobStatus. rewrite Er, Ef. split; reflexivity.
              ** intros u [H | []]. discriminate H.
        -- cbn. split; [lia|]. split; [|split].
           ++ intros fs o [H | []]. discriminate H.
           ++ intros ms [H | []]. injection H as <-.
              split; [reflexivity|]. split; [discriminate|].
              exists jobStatus. rewrite Er. split; reflexivity.
           ++ intros u [H | []]. discriminate H.
      * cbn. split; [lia|]. split; [|split]; intros; contradiction.
  - unfold handleRetry. destruct (files s) as [|f fs'] eqn:Ef; cbn.
    + split; [lia|]. split; [|split]; intros; contradiction.
    + split; [lia|]. split; [|split].
      * intros fs o [H | []]. injection H as <- <-. right. exists now.
        repeat split. discriminate.
      * intros ms [H | []]. discriminate H.
      * intros u [H | []]. discriminate H.
  - cbn. split; [lia|]. split; [|split]; intros; contradiction.
  - cbn. split; [lia|]. split; [|split]; intros; contradiction.
  - cbn. split; [lia|]. split; [|split]; intros; contradiction.
  - unfold handleDownload. destruct (String.eqb (jobId s) ""); cbn.
    + split; [lia|]. split; [|split]; intros; contradiction.
    + split; [lia|]. split; [|split].
      * intros fs o [H | []]. discriminate H.
      * intros ms [H | []]. discriminate H.
      * intros u _. exists t. reflexivity.
Qed.

(** X9.  How the view changes: the processing view is entered only by a
    submission or by a retry with stored files, the results view only by
    the scheduled timeout, and the upload view only by a reset or by a
    retry without stored files. *)
Theorem view_changes_by_origin :
  forall (s : State) (e : Event),
    view (fst (step s e)) <> view s ->
    match view (fst (step s e)) with
    | processing =>
        (exists fs o now, e = Process fs o now)
        \/ (exists now, e = Retry now /\ files s <> [])
    | results => e = ShowResultsTimeout
    | upload => e = Reset \/ (exists now, e = Retry now /\ files s = [])
    end.
Proof.
  intros s e Hch.
  destruct e as [fs0 o0 now | now | outcome | now | | | | t]; cbn [step fst] in *.
  - cbn. left. exists fs0, o0, now. reflexivity.
  - exfalso. apply Hch. pose proof (onInterval_frame now s) as F. cbn zeta in F. tauto.
  - exfalso. apply Hch. destruct (pending s); [reflexivity|].
    destruct outcome as [jobStatus | err]; cbn; [|reflexivity].
    unfold onFulfilled. destruct (js_result jobStatus) as [er|]; [|reflexivity].
    destruct (String.eqb (er_status er) "failed"); reflexivity.
  - unfold handleRetry in *. destruct (files s) as [|f fs'] eqn:Ef; cbn in *.
    + right. exists now. split; reflexivity.
    + right. exists now. split; [reflexivity | discriminate].
  - cbn. left. reflexivity.
  - cbn. reflexivity.
  - exfalso. apply Hch. reflexivity.
  - exfalso. apply Hch. reflexivity.
Qed.

End Lifecycle.

(** ** The step indicator of the processing screen *)

Section StepIndicator.
Import Processing.

(** X10.  The highlighted step depends on the progress by fixed
    thresholds: Upload below 30 (also below 10), Extract from 30, Analyze
    from 55 and Generate from 85; it never moves back as the progress
    grows. *)
Theorem active_step_by_thresholds :
  (forall progress : Q,
      activeStep progress =
        if JS.Qltb progress 30 then 0%nat
        else if JS.Qltb progress 55 then 1%nat
        else if JS.Qltb progress 85 then 2%nat
        else 3%nat)
  /\ (forall p1 p2 : Q, p1 <= p2 -> (activeStep p1 <= activeStep p2)%nat).
Proof.
  assert (P : forall progress : Q,
             activeStep progress =
               if JS.Qltb progress 30 then 0%nat
               else if JS.Qltb progress 55 then 1%nat
               else if JS.Qltb progress 85 then 2%nat
               else 3%nat).
  { intro p. unfold activeStep, steps. cbn [activeStepFrom snd].
    destruct (Qle_bool 10 p) eqn:E10, (Qle_bool 30 p) eqn:E30,
      (Qle_bool 55 p) eqn:E55, (Qle_bool 85 p) eqn:E85;
      destruct (JS.Qltb p 30) eqn:L30, (JS.Qltb p 55) eqn:L55, (JS.Qltb p 85) eqn:L85;
      try reflexivity; exfalso;
      repeat match goal with
             | H : Qle_bool _ _ = true |- _ => apply Qle_bool_iff in H
             | H : Qle_bool _ _ = false |- _ => apply Qle_bool_false in H
             | H : JS.Qltb _ _ = true |- _ => apply Qltb_true in H
             | H : JS.Qltb _ _ = false |- _ => apply Qltb_false in H
             end; lra. }
  split; [exact P|].
  intros p1 p2 Hle. rewrite (P p1), (P p2).
  destruct (JS.Qltb p1 30) eqn:A30, (JS.Qltb p1 55) eqn:A55, (JS.Qltb p1 85) eqn:A85,
    (JS.Qltb p2 30) eqn:B30, (JS.Qltb p2 55) eqn:B55, (JS.Qltb p2 85) eqn:B85;
    try lia; exfalso;
    repeat match goal with
           | H : JS.Qltb _ _ = true |- _ => apply Qltb_true in H
           | H : JS.Qltb _ _ = false |- _ => apply Qltb_false in H
           end; lra.
Qed.

End StepIndicator.

(** ** The extraction request and the download addresses *)

Section Requests.
Import JS Schema Api.

Lemma files_appended (files : list App.File) :
  forall acc : FormData,
    fold_left (fun fd file => append fd "files" (FormFile file)) files acc
    = (acc ++ map (fun f => ("files", FormFile f)) files)%list.
Proof.
  induction files as [|f rest IH]; intro acc; cbn [fold_left map].
  - rewrite app_nil_r. reflexivity.
  - rewrite IH. unfold append. rewrite <- app_assoc. reflexivity.
Qed.

Lemma getAll_app (name : string) (a b : FormData) :
  getAll name (a ++ b)%list = (getAll name a ++ getAll name b)%list.
Proof. unfold getAll. rewrite filter_app, map_app. reflexivity. Qed.

Lemma getAll_file_parts (name : string) (files : list App.File) :
  getAll name (map (fun f => ("files", FormFile f)) files)
  = if String.eqb "files" name then map FormFile files else [].
Proof.
  unfold getAll. induction files as [|f rest IH]; cbn [map filter fst].
  - destruct (String.eqb "files" name); reflexivity.
  - destruct (String.eqb "files" name) eqn:E; cbn [map snd]; rewrite IH; reflexivity.
Qed.

(** The body as a whole: the file parts, then the option fields. *)
Lemma buildFormData_layout (files : list App.File) (options : option ExtractionOptions) :
  buildFormData files options
  = (map (fun f => ("files", FormFile f)) files
     ++ match options with
        | Some o =>
            [("output_currency", FormText (currencyText (output_currency o)))]
            ++ match exchange_rate o with
               | Some r => [("exchange_rate", FormText (Number_toString r))]
               | None => []
               end
            ++ [("sync_hs_codes", FormText (String_of_bool (sync_hs_codes o)))]
        | None => []
        end)%list.
Proof.
  unfold buildFormData. rewrite files_appended. cbn [app].
  destruct options as [o|]; [|symmetry; apply app_nil_r].
  unfold append. destruct (exchange_rate o) as [r|]; rewrite <- ?app_assoc; reflexivity.
Qed.

(** X11.  The request posted by [extractDocuments] goes to /api/extract
    with a 180 s timeout; its "files" parts are the given files, all of
    them and in order.  Without options no other field is sent; with
    options the currency and the HS-code flag are sent once each, and the
    exchange rate is sent exactly when it is not null, whatever the
    currency is. *)
Theorem extract_request_layout :
  forall (files : list App.File) (options : option ExtractionOptions),
    let req := extractDocuments files options in
    url req = "/api/extract"
    /\ timeout req = 180000%Z
    /\ getAll "files" (body req) = map FormFile files
    /\ (options = None -> List.length (body req) = List.length files)
    /\ (forall o, options = Some o ->
        getAll "output_currency" (body req)
        = [FormText (currencyText (output_currency o))]
        /\ getAll "sync_hs_codes" (body req)
           = [FormText (String_of_bool (sync_hs_codes o))]
        /\ getAll "exchange_rate" (body req)
           = match exchange_rate o with
             | Some r => [FormText (Number_toString r)]
             | None => []
             end
        /\ (has "exchange_rate" (body req) = true <-> exchange_rate o <> None)).
Proof.
  intros files options req. subst req. cbn [extractDocuments url timeout body].
  rewrite buildFormData_layout.
  split; [reflexivity|]. split; [reflexivity|]. split; [|split].
  - rewrite getAll_app, getAll_file_parts. cbn [String.eqb Ascii.eqb Bool.eqb andb].
    destruct options as [o|]; [|apply app_nil_r].
    destruct (exchange_rate o); cbn; apply app_nil_r.
  - intros ->. rewrite app_nil_r, length_map. reflexivity.
  - intros o ->. rewrite !getAll_app, !getAll_file_parts.
    unfold has. rewrite existsb_app.
    assert (Hno : existsb (fun entry : string * FormValue => String.eqb (fst entry) "exchange_rate")
                    (map (fun f => ("files", FormFile f)) files) = false).
    { induction files as [|f rest IH]; [reflexivity | exact IH]. }
    rewrite Hno.
    destruct (exchange_rate o) as [r|]; cbn; repeat split; try discriminate;
      try (intro H; congruence).
Qed.

(** States of the options panel reachable through offered edits keep the
    exchange rate empty under "auto". *)
Lemma reachable_options_rule (o : ExtractionOptions) :
  Upload.reachable o -> Upload.rateClearedOnAuto o.
Proof.
  intro Hr. induction Hr as [|o e _ IH Hoff].
  - intros _. reflexivity.
  - apply offered_edit_preserves; assumption.
Qed.

(** X12.  For options set through the edits the form offers, a request that
    carries an exchange rate never has the currency "auto". *)
Theorem offered_options_send_rate_only_with_currency :
  forall (files : list App.File) (o : ExtractionOptions),
    Upload.reachable o ->
    has "exchange_rate" (body (extractDocuments files (Some o))) = true ->
    output_currency o <> auto
    /\ getAll "output_currency" (body (extractDocuments files (Some o)))
       <> [FormText "auto"].
Proof.
  intros files o Hr Hhas.
  assert (Hrate : exchange_rate o <> None).
  { cbn [extractDocuments body] in Hhas. rewrite buildFormData_layout in Hhas.
    unfold has in Hhas. rewrite existsb_app in Hhas.
    assert (Hno : existsb (fun entry : string * FormValue => String.eqb (fst entry) "exchange_rate")
                    (map (fun f => ("files", FormFile f)) files) = false).
    { clear. induction files as [|f rest IH]; [reflexivity | exact IH]. }
    rewrite Hno in Hhas. intro Hnone. rewrite Hnone in Hhas. discriminate Hhas. }
  assert (Hcur : output_currency o <> auto).
  { intro Hauto. apply Hrate. apply (reachable_options_rule o Hr Hauto). }
  split; [exact Hcur|].
  cbn [extractDocuments body]. rewrite buildFormData_layout.
  rewrite getAll_app, getAll_file_parts. cbn [String.eqb Ascii.eqb Bool.eqb andb app].
  destruct (output_currency o); [congruence | |];
    destruct (exchange_rate o); cbn; discriminate.
Qed.

Lemma append_cancel_prefix (p a b : string) : p ++ a = p ++ b -> a = b.
Proof.
  induction p as [|c p IH]; cbn [String.append]; intro H; [exact H|].
  injection H as H. exact (IH H).
Qed.

Lemma list_of_append (a b : string) :
  list_ascii_of_string (a ++ b)
  = (list_ascii_of_string a ++ list_ascii_of_string b)%list.
Proof.
  induction a as [|c a IH]; cbn [String.append list_ascii_of_string app];
    [reflexivity | now rewrite IH].
Qed.

Lemma list_of_string_inj (a b : string) :
  list_ascii_of_string a = list_ascii_of_string b -> a = b.
Proof.
  intro H. rewrite <- (string_of_list_ascii_of_string a),
             <- (string_of_list_ascii_of_string b), H. reflexivity.
Qed.

(** Two addresses ending in a slash and a type name, read from the end. *)
Lemma segments_from_the_end (j j' : string) (t t' : App.DownloadType) :
  j ++ "/" ++ App.downloadTypeName t = j' ++ "/" ++ App.downloadTypeName t' ->
  j = j' /\ t = t'.
Proof.
  intro H. apply (f_equal list_ascii_of_string) in H.
  rewrite !list_of_append in H. apply (f_equal (@rev ascii)) in H.
  rewrite !rev_app_distr in H.
  assert (Hj : rev (list_ascii_of_string j) = rev (list_ascii_of_string j') -> j = j').
  { intro E. apply list_of_string_inj. rewrite <- (rev_involutive (list_ascii_of_string j)),
      <- (rev_involutive (list_ascii_of_string j')), E. reflexivity. }
  destruct t, t'; cbn in H; try discriminate H;
    (split; [apply Hj; congruence | reflexivity]).
Qed.

(** X13.  The download address determines the job and the sheet type:
    two addresses are equal only for the same job id and the same type,
    whatever characters the job ids contain. *)
Theorem download_url_injective :
  forall (j j' : string) (t t' : App.DownloadType),
    App.getDownloadUrl j t = App.getDownloadUrl j' t' -> j = j' /\ t = t'.
Proof.
  intros j j' t t' H. unfold App.getDownloadUrl in H.
  apply append_cancel_prefix in H. apply segments_from_the_end. exact H.
Qed.

End Requests.

(** ** File selection *)

Section FileSelection.
Import JS Schema UploadForm.

Lemma validateFrom_partition (fmt : N -> string) (st : nat -> string)
    (fs : list App.File) :
  forall i,
    map file (fst (validateFrom fmt st i fs)) = filter accepted fs
    /\ List.length (snd (validateFrom fmt st i fs)) = List.length (filter rejected fs).
Proof.
  induction fs as [|f rest IH]; intro i; cbn [validateFrom filter].
  - split; reflexivity.
  - destruct (IH (S i)) as [IHv IHe].
    destruct (validateFrom fmt st (S i) rest) as [vs es]. cbn [fst snd] in *.
    unfold rejected, accepted.
    destruct (String.eqb (App.file_type f) ALLOWED_FILE_TYPE); cbn [negb andb].
    + destruct (MAX_FILE_SIZE <? App.file_size f)%N; cbn [negb fst snd map List.length].
      * split; [exact IHv | now rewrite IHe].
      * split; [now rewrite IHv | exact IHe].
    + cbn [fst snd List.length]. split; [exact IHv | now rewrite IHe].
Qed.

Lemma filter_length_split {A : Type} (p : A -> bool) (l : list A) :
  (List.length (filter p l) + List.length (filter (fun x => negb (p x)) l)
   = List.length l)%nat.
Proof.
  induction l as [|x l IH]; cbn [filter]; [reflexivity|].
  destruct (p x); cbn [negb List.length]; lia.
Qed.

Lemma addFiles_spec (fmt : N -> string) (batch : list App.File) (st : nat -> string)
    (s : State) :
  let s' := addFiles fmt batch st s in
  map file (files s') = (map file (files s) ++ filter accepted batch)%list
  /\ List.length (validationErrors s') = List.length (filter rejected batch)
  /\ dragActive s' = dragActive s
  /\ options s' = options s
  /\ showSettings s' = showSettings s.
Proof.
  unfold addFiles, validateFiles.
  destruct (validateFrom_partition fmt st batch 0%nat) as [Hv He].
  destruct (validateFrom fmt st 0 batch) as [vs es]. cbn [fst snd] in *.
  cbn. rewrite map_app, Hv. repeat split.
  destruct es as [|e es]; cbn [List.length Nat.ltb Nat.leb] in *; exact He.
Qed.

(** X14.  Adding files by drop or through the file input keeps exactly the
    files that are PDFs of at most 20 MB, in their order, after the files
    already stored (nothing is deduplicated or replaced); the validation
    errors shown afterwards are those of this batch alone, one per rejected
    file, and every file of the batch is either kept or reported. *)
Theorem added_files_are_filtered_and_reported :
  forall (fmt : N -> string) (s : State) (batch : list App.File) (st : nat -> string),
    let dropped := fst (step fmt s (Drop batch st)) in
    let chosen := fst (step fmt s (FileInputChange batch st)) in
    map file (files dropped) = (map file (files s) ++ filter accepted batch)%list
    /\ map file (files chosen) = map file (files dropped)
    /\ List.length (validationErrors dropped) = List.length (filter rejected batch)
    /\ validationErrors chosen = validationErrors dropped
    /\ (List.length (filter accepted batch) + List.length (validationErrors dropped)
        = List.length batch)%nat
    /\ dragActive dropped = false
    /\ dragActive chosen = dragActive s
    /\ options dropped = options s.
Proof.
  intros fmt s batch st dropped chosen. subst dropped chosen.
  cbn [step fst]. unfold handleDrop, handleFileInputChange.
  pose proof (addFiles_spec fmt batch st s) as A.
  pose proof (addFiles_spec fmt batch st (setDragActive false s)) as B.
  cbn zeta in A, B. destruct A as (A1 & A2 & A3 & A4 & A5).
  destruct B as (B1 & B2 & B3 & B4 & B5). cbn [setDragActive files dragActive options] in *.
  split; [exact B1|]. split; [congruence|]. split; [exact B2|].
  split.
  - unfold addFiles. destruct (validateFiles fmt st batch []). reflexivity.
  - split; [rewrite B2; apply (filter_length_split accepted batch)|].
    split; [exact B3|]. split; [exact A3 | exact B4].
Qed.

Lemma step_keeps_accepted (fmt : N -> string) (s : State) (e : Event) :
  Forall (fun f => accepted (file f) = true) (files s) ->
  Forall (fun f => accepted (file f) = true) (files (fst (step fmt s e))).
Proof.
  intro H.
  assert (Hadd : forall batch st s0,
             Forall (fun f => accepted (file f) = true) (files s0) ->
             Forall (fun f => accepted (file f) = true) (files (addFiles fmt batch st s0))).
  { intros batch st s0 H0. apply Forall_forall. intros x Hx.
    pose proof (addFiles_spec fmt batch st s0) as (A1 & _). cbn zeta in A1.
    assert (Hin : In (file x) (map file (files (addFiles fmt batch st s0))))
      by (apply in_map; exact Hx).
    rewrite A1 in Hin. apply in_app_or in Hin as [Hin | Hin].
    - apply in_map_iff in Hin as [y [Hy Hin]]. rewrite <- Hy.
      rewrite Forall_forall in H0. apply H0. exact Hin.
    - apply filter_In in Hin. tauto. }
  destruct e; cbn [step fst]; try exact H.
  - apply Hadd. exact H.
  - apply Hadd. exact H.
  - cbn. rewrite Forall_forall in *. intros x Hx. apply filter_In in Hx. apply H. tauto.
  - constructor.
Qed.

Lemma reachable_files_accepted (fmt : N -> string) (s : State) :
  reachable fmt s -> Forall (fun f => accepted (file f) = true) (files s).
Proof.
  intro Hr. induction Hr as [|s e _ IH]; [constructor | apply step_keeps_accepted, IH].
Qed.

(** X15.  In every state the upload form can reach, all stored files are
    PDFs of at most 20 MB, so that is all [handleProcessFiles] ever hands
    over; the button that triggers it is on screen exactly when at least
    one file is stored (and then the help text is not), so the list handed
    over from the screen is never empty. *)
Theorem upload_hands_over_accepted_files_only :
  forall (fmt : N -> string) (s : State),
    reachable fmt s ->
    step fmt s ProcessFiles = (s, Some (map file (files s), options s))
    /\ Forall (fun f => App.file_type f = "application/pdf"
                        /\ (App.file_size f <= 20 * 1024 * 1024)%N)
              (fst (handleProcessFiles s))
    /\ (processButton (UploadSection s) = true <-> fst (handleProcessFiles s) <> [])
    /\ helpText (UploadSection s) = negb (processButton (UploadSection s)).
Proof.
  intros fmt s Hr. split; [reflexivity|]. split; [|split].
  - pose proof (reachable_files_accepted fmt s Hr) as H.
    cbn [handleProcessFiles fst]. apply Forall_forall. intros f Hin.
    apply in_map_iff in Hin as [x [<- Hx]].
    rewrite Forall_forall in H. specialize (H x Hx).
    unfold accepted in H. apply andb_true_iff in H as [Ht Hs].
    apply String.eqb_eq in Ht. apply negb_true_iff in Hs. apply N.ltb_ge in Hs.
    split; [exact Ht | exact Hs].
  - cbn [handleProcessFiles fst UploadSection processButton].
    destruct (files s) as [|x l]; cbn; split; try discriminate; try congruence.
  - cbn [UploadSection helpText processButton]. destruct (files s); reflexivity.
Qed.

Lemma filter_all_true {A : Type} (p : A -> bool) (l : list A) :
  (forall x, In x l -> p x = true) -> filter p l = l.
Proof.
  induction l as [|x l IH]; intro H; cbn [filter]; [reflexivity|].
  rewrite (H x (or_introl eq_refl)), IH; [reflexivity|].
  intros y Hy. apply H. right. exact Hy.
Qed.

(** X16.  Removing a file by its id, when the stored ids are pairwise
    different: exactly that entry disappears and the others keep their
    order; nothing else of the form changes. *)
Theorem remove_file_drops_that_entry :
  forall (fmt : N -> string) (s : State) (before after : list FileWithId) (f : FileWithId),
    NoDup (map id (files s)) ->
    files s = (before ++ f :: after)%list ->
    let s' := fst (step fmt s (RemoveFile (id f))) in
    files s' = (before ++ after)%list
    /\ validationErrors s' = validationErrors s
    /\ options s' = options s
    /\ dragActive s' = dragActive s.
Proof.
  intros fmt s before after f Hnd Hf s'. subst s'. cbn [step fst handleRemoveFile files].
  split; [|repeat split].
  rewrite Hf in *. rewrite map_app in Hnd. cbn [map] in Hnd.
  assert (Hnot : ~ In (id f) (map id before ++ map id after)%list)
    by (apply NoDup_remove_2; exact Hnd).
  assert (Hkeep : forall l, (forall x, In x l -> id x <> id f) ->
                            filter (fun g => negb (String.eqb (id g) (id f))) l = l).
  { intros l Hl. apply filter_all_true. intros x Hx.
    apply negb_true_iff, String.eqb_neq, Hl, Hx. }
  rewrite filter_app. cbn [filter]. rewrite String.eqb_refl. cbn [negb].
  rewrite !Hkeep; [reflexivity | |].
  - intros x Hx E. apply Hnot. apply in_or_app. right. rewrite <- E. apply in_map. exact Hx.
  - intros x Hx E. apply Hnot. apply in_or_app. left. rewrite <- E. apply in_map. exact Hx.
Qed.

End FileSelection.

(** ** Cells of the result tables *)

Section Cells.
Import JS Schema Results.

Lemma concat_length_head (sep x : string) (l : list string) :
  (String.length x <= String.length (String.concat sep (x :: l)))%nat.
Proof.
  cbn [String.concat]. destruct l as [|y l]; [lia|].
  rewrite length_append. lia.
Qed.

(** X17.  The items cell of a box row shows the placeholder "-" exactly
    when the box has no items; otherwise it lists every item as
    "description x quantity". *)
Theorem box_items_cell_placeholder_iff_no_items :
  forall (multi : bool) (box : Box),
    (br_items (boxRow multi box) = "-" <-> items box = [])
    /\ (items box <> [] -> br_items (boxRow multi box) = itemsSummary box).
Proof.
  intros multi box. cbn [boxRow br_items]. unfold itemsSummary.
  destruct (items box) as [|bi rest] eqn:E.
  - cbn. split; [tauto | congruence].
  - cbn [map].
    set (x := v (bi_description bi) ++ timesSep ++ v (bi_quantity bi)).
    set (l := map (fun bi0 => v (bi_description bi0) ++ timesSep ++ v (bi_quantity bi0)) rest).
    assert (Hx : (4 <= String.length x)%nat).
    { subst x. rewrite !length_append. cbn. lia. }
    pose proof (concat_length_head ", " x l) as Hlen.
    assert (Hne : String.concat ", " (x :: l) <> "").
    { intro H. rewrite H in Hlen. cbn in Hlen. lia. }
    assert (Hdash : String.concat ", " (x :: l) <> "-").
    { intro H. rewrite H in Hlen. cbn in Hlen. lia. }
    apply String.eqb_neq in Hne. rewrite Hne.
    split; [|reflexivity]. split; [intro H; contradiction | discriminate].
Qed.

Lemma append_nonempty_middle (a b c : string) : b <> "" -> a ++ b ++ c <> "".
Proof.
  intros Hb H. apply (f_equal String.length) in H. rewrite !length_append in H.
  destruct b; [congruence | cbn in H; lia].
Qed.

(** X18.  The generic accessor never yields an empty cell: blank values
    give "-", and every other value has a non-empty text. *)
Theorem accessor_never_empty :
  forall cv : ConfidenceValue, v cv <> "".
Proof.
  intro cv. unfold v. destruct (isBlank (value cv)) eqn:Hb; [discriminate|].
  destruct (value cv) as [| | s | [|neg|q]]; cbn in Hb |- *; try discriminate.
  - apply String.eqb_neq. exact Hb.
  - destruct neg; discriminate.
  - apply append_nonempty_middle, natDigits_nonempty.
Qed.

Lemma scaledRound0_at_most_100 (y : Q) :
  0 <= y -> y <= 100 -> (scaledRound 0 y <= 100)%N.
Proof.
  intros H0 H1. unfold scaledRound. destruct y as [a b].
  unfold Qle in H0, H1. cbn in H0, H1. cbn [Qnum Qden].
  change (10 ^ N.of_nat 0)%N with 1%N.
  apply N.lt_succ_r. apply N.Div0.div_lt_upper_bound. lia.
Qed.

(** The product [score * 100] for a score in [0,1], as a double. *)
Lemma percent_product (score : Q) :
  0 <= score -> score <= 1 ->
  Float64.mul64 (Fin score) (Fin 100) = Fin (Float64.round64Q (score * 100))
  /\ 0 <= Float64.round64Q (score * 100) <= 100.
Proof.
  intros H0 H1. cbn [Float64.mul64].
  assert (Hlo : 0 <= Float64.round64Q (score * 100)).
  { change 0 with (Float64.round64Q 0) at 1. apply round64Q_mono. lra. }
  assert (Hhi : Float64.round64Q (score * 100) <= 100).
  { apply Qle_trans with (Float64.round64Q 100); [apply round64Q_mono; lra|].
    apply Qle_bool_iff. vm_compute. reflexivity. }
  assert (H7 : 128 < Float64.pow2 1024).
  { apply Qle_lt_trans with (Float64.pow2 7); [apply Qle_bool_iff; reflexivity|].
    apply pow2_lt. lia. }
  split; [apply round64_finite; lra | split; assumption].
Qed.

(** X19.  For a score between 0 and 1 the percentage on a confidence chip
    is a whole number from 0 to 100 followed by "%", without a sign. *)
Theorem confidence_chip_percent_in_range :
  forall score : Q,
    0 <= score -> score <= 1 ->
    exists n : N,
      (n <= 100)%N /\ chip_label (confChip score) = natDigits n ++ "%".
Proof.
  intros score H0 H1.
  destruct (percent_product score H0 H1) as (Hp & Hlo & Hhi).
  exists (scaledRound 0 (Float64.round64Q (score * 100))).
  split; [apply scaledRound0_at_most_100; assumption|].
  unfold confChip, rowChip. cbn [chip_label]. unfold percentLabelOf.
  rewrite Hp. unfold toFixed0.
  set (y := Float64.round64Q (score * 100)) in *.
  assert (Hbig : 100 < inject_Z (10 ^ 21)) by reflexivity.
  assert (E1 : Qle_bool (inject_Z (10 ^ 21)) y = false) by (apply Qle_bool_false; lra).
  assert (E2 : Qle_bool y (- inject_Z (10 ^ 21)) = false) by (apply Qle_bool_false; lra).
  assert (E3 : Qltb y 0 = false) by (apply Qltb_false; lra).
  rewrite E1, E2, E3. reflexivity.
Qed.

End Cells.

(** ** From the upload form to the request *)

Section EndToEnd.
Import JS Schema.

Lemma request_file_parts (files : list App.File) (options : option ExtractionOptions) :
  Api.getAll "files" (Api.body (Api.extractDocuments files options))
  = map Api.FormFile files.
Proof.
  cbn [Api.extractDocuments Api.body]. rewrite buildFormData_layout.
  rewrite getAll_app, getAll_file_parts. cbn [String.eqb Ascii.eqb Bool.eqb andb].
  destruct options as [o|]; [|apply app_nil_r].
  destruct (exchange_rate o); cbn; apply app_nil_r.
Qed.

(** X20.  Pressing the process button in any reachable state of the upload
    form makes the orchestrator post exactly one request; its file parts
    are the stored files, in order, each a PDF of at most 20 MB, and the
    orchestrator keeps the same files and options for a retry. *)
Theorem process_button_posts_stored_files :
  forall (fmt : N -> string) (u : UploadForm.State) (a : App.State) (now : Z),
    UploadForm.reachable fmt u ->
    let '(selectedFiles, options) := UploadForm.handleProcessFiles u in
    let r := App.step a (App.Process selectedFiles (Some options) now) in
    exists req,
      Api.requestsOf (snd r) = [req]
      /\ Api.getAll "files" (Api.body req)
         = map Api.FormFile (map UploadForm.file (UploadForm.files u))
      /\ Forall (fun f => UploadForm.accepted f = true) selectedFiles
      /\ App.files (fst r) = selectedFiles
      /\ App.lastOptions (fst r) = Some (UploadForm.options u)
      /\ App.view (fst r) = App.processing.
Proof.
  intros fmt u a now Hr. cbn [UploadForm.handleProcessFiles].
  exists (Api.extractDocuments (map UploadForm.file (UploadForm.files u))
            (Some (UploadForm.options u))).
  split; [reflexivity|]. split; [apply request_file_parts|].
  split; [|repeat split].
  pose proof (reachable_files_accepted fmt u Hr) as H.
  apply Forall_forall. intros f Hin. apply in_map_iff in Hin as [x [<- Hx]].
  rewrite Forall_forall in H. apply H. exact Hx.
Qed.

End EndToEnd.

(** ** The further properties at concrete inputs *)

Section FurtherInstances.
Import JS Schema Results App Samples UploadSamples.

Example upload_after_drop :
  map UploadForm.file (UploadForm.files afterDrop) = [invoicePdf; packingPdf]
  /\ map UploadForm.id (UploadForm.files afterDrop)
     = ["invoice.pdf-1714550000000-0.0"; "packing.pdf-1714550000000-0.2"]
  /\ UploadForm.validationErrors afterDrop
     = ["scan.pdf - Exceeds 20 MB limit (30 MB)";
        "items.xlsx - Only PDF files are accepted."]
  /\ UploadForm.countLabel (UploadForm.UploadSection afterDrop) = Some "2 files selected".
Proof. vm_compute. repeat split. Qed.

Example request_for_inr_options :
  Api.body (Api.extractDocuments [invoicePdf] (Some inrOptions))
  = [("files", Api.FormFile invoicePdf);
     ("output_currency", Api.FormText "INR");
     ("exchange_rate", Api.FormText "83.5");
     ("sync_hs_codes", Api.FormText "true")].
Proof. vm_compute. reflexivity. Qed.

Lemma checkpoint_target_by_elapsed_time_witness :
  (2000 <= 9000)%Z
  /\ target (currentStepAt 2000) <= target (currentStepAt 9000).
Proof.
  assert (H : (2000 <= 9000)%Z) by (intro E; discriminate E).
  split; [exact H|].
  exact (proj2 checkpoint_target_by_elapsed_time 2000%Z 9000%Z H).
Defined.

Lemma rounded_estimator_reaches_target_witness :
  let st := {| target := 55; message := "Analyzing invoice with AI..."; delay := 4000 |} in
  In st steps
  /\ 0 <= 52 /\ 52 <= target st
  /\ target st <= 52 + (29 # 100) * inject_Z (Z.of_nat 11)
  /\ Nat.iter 11 (progressUpdater64 st) 52 == target st.
Proof.
  cbn zeta.
  assert (Hin : In {| target := 55; message := "Analyzing invoice with AI..."; delay := 4000 |}
                   steps) by (right; right; left; reflexivity).
  assert (H0 : 0 <= 52) by (apply Qle_bool_iff; reflexivity).
  assert (H1 : 52 <= 55) by (apply Qle_bool_iff; reflexivity).
  assert (H2 : 55 <= 52 + (29 # 100) * inject_Z (Z.of_nat 11))
    by (apply Qle_bool_iff; reflexivity).
  split; [exact Hin|]. split; [exact H0|]. split; [exact H1|]. split; [exact H2|].
  exact (proj1 (rounded_estimator_reaches_target
                  {| target := 55; message := "Analyzing invoice with AI..."; delay := 4000 |}
                  52 11 Hin H0 H1 H2)).
Defined.

Lemma settlement_cancels_timer_witness :
  let s := fst (step initialState (Process [invoicePdf] None 0)) in
  pending s <> O
  /\ progressIntervalRef (fst (step s (ExtractSettled (Rejected ThrownOther)))) = None.
Proof.
  cbn zeta.
  assert (H : pending (fst (step initialState (Process [invoicePdf] None 0))) <> O)
    by discriminate.
  split; [exact H|].
  exact (proj1 (settlement_cancels_timer _ (Rejected ThrownOther) [150; 300]%Z H)).
Defined.

Lemma usable_result_reaches_results_screen_witness :
  js_result usableJob = Some (resultWith "success" [] ["low confidence on HS code"])
  /\ er_status (resultWith "success" [] ["low confidence on HS code"]) <> "failed"
  /\ toast_message
       (toast (fst (step (fst (run initialState
                                 (Process [invoicePdf] None 0 :: map IntervalTick [150]%Z)))
                         (ExtractSettled (Fulfilled usableJob)))))
     = "low confidence on HS code"
  /\ render (fst (step (fst (step (fst (run initialState
                                          (Process [invoicePdf] None 0
                                             :: map IntervalTick [150]%Z)))
                                  (ExtractSettled (Fulfilled usableJob))))
                       ShowResultsTimeout))
     = ResultsScreen (resultWith "success" [] ["low confidence on HS code"])
                     (job_id usableJob).
Proof.
  assert (H0 : js_result usableJob
               = Some (resultWith "success" [] ["low confidence on HS code"]))
    by reflexivity.
  assert (H1 : er_status (resultWith "success" [] ["low confidence on HS code"]) <> "failed")
    by discriminate.
  split; [exact H0|]. split; [exact H1|].
  pose proof (usable_result_reaches_results_screen initialState [invoicePdf] None 0%Z
                [150]%Z usableJob _ H0 H1) as H.
  cbn zeta in H. destruct H as (_ & _ & _ & _ & _ & _ & _ & _ & Ht & Hr).
  split; [rewrite Ht; reflexivity | exact Hr].
Defined.

Lemma download_needs_stored_job_id_witness :
  jobId initialState = ""
  /\ snd (step initialState (Download multi)) = [].
Proof.
  split; [reflexivity|].
  exact (proj1 (proj2 (proj1 download_needs_stored_job_id initialState multi)) eq_refl).
Defined.

Lemma effects_have_one_origin_witness :
  let s := fst (step initialState (Process [invoicePdf] None 0)) in
  In (SetTimeoutShowResults 500) (snd (step s (ExtractSettled (Fulfilled usableJob))))
  /\ pending s <> O.
Proof.
  cbn zeta.
  assert (H : In (SetTimeoutShowResults 500)
                (snd (step (fst (step initialState (Process [invoicePdf] None 0)))
                           (ExtractSettled (Fulfilled usableJob)))))
    by (left; reflexivity).
  split; [exact H|].
  exact (proj1 (proj2 (proj1 (proj2 (proj2 (effects_have_one_origin _ _))) 500%Z H))).
Defined.

Lemma view_changes_by_origin_witness :
  view (fst (step initialState (Process [invoicePdf] None 0))) <> view initialState
  /\ ((exists fs o now, Process [invoicePdf] None 0 = Process fs o now)
      \/ (exists now, Process [invoicePdf] None 0 = Retry now /\ files initialState <> [])).
Proof.
  assert (H : view (fst (step initialState (Process [invoicePdf] None 0)))
              <> view initialState) by discriminate.
  split; [exact H|].
  exact (view_changes_by_origin initialState (Process [invoicePdf] None 0) H).
Defined.

Lemma active_step_by_thresholds_witness :
  29 <= 56 /\ (Processing.activeStep 29 <= Processing.activeStep 56)%nat.
Proof.
  assert (H : 29 <= 56) by (apply Qle_bool_iff; reflexivity).
  split; [exact H|].
  exact (proj2 active_step_by_thresholds 29 56 H).
Defined.

Lemma extract_request_layout_witness :
  Api.getAll "exchange_rate" (Api.body (Api.extractDocuments [invoicePdf] (Some inrOptions)))
  = [Api.FormText "83.5"]
  /\ List.length (Api.body (Api.extractDocuments [invoicePdf; packingPdf] None)) = 2%nat.
Proof.
  split.
  - exact (proj1 (proj2 (proj2
             (proj2 (proj2 (proj2 (proj2 (extract_request_layout [invoicePdf] (Some inrOptions)))))
                inrOptions eq_refl)))).
  - exact (proj1 (proj2 (proj2 (proj2
             (extract_request_layout [invoicePdf; packingPdf] None)))) eq_refl).
Defined.

Lemma offered_options_send_rate_only_with_currency_witness :
  Upload.reachable inrOptions
  /\ Api.has "exchange_rate" (Api.body (Api.extractDocuments [invoicePdf] (Some inrOptions)))
     = true
  /\ output_currency inrOptions <> auto.
Proof.
  assert (Hr : Upload.reachable inrOptions).
  { unfold inrOptions. apply Upload.reach_edit; [|reflexivity].
    apply Upload.reach_edit; [|reflexivity]. apply Upload.reach_default. }
  assert (Hh : Api.has "exchange_rate"
                 (Api.body (Api.extractDocuments [invoicePdf] (Some inrOptions))) = true)
    by reflexivity.
  split; [exact Hr|]. split; [exact Hh|].
  exact (proj1 (offered_options_send_rate_only_with_currency [invoicePdf] inrOptions Hr Hh)).
Defined.

Lemma download_url_injective_witness :
  getDownloadUrl "job-1" simplified = getDownloadUrl "job-1" simplified
  /\ "job-1" = "job-1" /\ simplified = simplified.
Proof.
  split; [reflexivity|].
  exact (download_url_injective "job-1" "job-1" simplified simplified eq_refl).
Defined.

Lemma upload_reachable_afterDrop : UploadForm.reachable sizeText afterDrop.
Proof. unfold afterDrop. apply UploadForm.reach_step, UploadForm.reach_initial. Defined.

Lemma upload_hands_over_accepted_files_only_witness :
  UploadForm.reachable sizeText afterDrop
  /\ UploadForm.step sizeText afterDrop UploadForm.ProcessFiles
     = (afterDrop, Some (map UploadForm.file (UploadForm.files afterDrop),
                         UploadForm.options afterDrop)).
Proof.
  split; [exact upload_reachable_afterDrop|].
  exact (proj1 (upload_hands_over_accepted_files_only sizeText afterDrop
                  upload_reachable_afterDrop)).
Defined.

Lemma remove_file_drops_that_entry_witness :
  let f1 := {| UploadForm.file := invoicePdf; UploadForm.id := "invoice.pdf-1714550000000-0.0" |} in
  let f2 := {| UploadForm.file := packingPdf; UploadForm.id := "packing.pdf-1714550000000-0.2" |} in
  NoDup (map UploadForm.id (UploadForm.files afterDrop))
  /\ UploadForm.files afterDrop = ([] ++ f1 :: [f2])%list
  /\ UploadForm.files (fst (UploadForm.step sizeText afterDrop
                               (UploadForm.RemoveFile (UploadForm.id f1))))
     = ([] ++ [f2])%list.
Proof.
  cbn zeta.
  assert (Hnd : NoDup (map UploadForm.id (UploadForm.files afterDrop))).
  { apply NoDup_cons; [intros [H | []]; discriminate H|].
    apply NoDup_cons; [intros []|]. apply NoDup_nil. }
  assert (Hf : UploadForm.files afterDrop
               = ([] ++ {| UploadForm.file := invoicePdf;
                           UploadForm.id := "invoice.pdf-1714550000000-0.0" |}
                     :: [{| UploadForm.file := packingPdf;
                            UploadForm.id := "packing.pdf-1714550000000-0.2" |}])%list)
    by reflexivity.
  split; [exact Hnd|]. split; [exact Hf|].
  exact (proj1 (remove_file_drops_that_entry sizeText afterDrop [] _ _ Hnd Hf)).
Defined.

Lemma box_items_cell_placeholder_iff_no_items_witness :
  let box := {| box_number := number 1; length_cm := number 40; width_cm := number 30;
                height_cm := number 20; gross_weight_kg := number (92 # 10);
                net_weight_kg := blank;
                items := [{| bi_description := text "Widget"; bi_quantity := number 3 |}];
                destination_id := None; receiver := None |} in
  items box <> []
  /\ br_items (boxRow false box) = itemsSummary box.
Proof.
  cbn zeta. split; [discriminate|].
  apply (proj2 (box_items_cell_placeholder_iff_no_items false _)). discriminate.
Defined.

Lemma confidence_chip_percent_in_range_witness :
  0 <= 87 # 100 /\ 87 # 100 <= 1
  /\ exists n : N, (n <= 100)%N /\ chip_label (confChip (87 # 100)) = natDigits n ++ "%".
Proof.
  assert (H0 : 0 <= 87 # 100) by (apply Qle_bool_iff; reflexivity).
  assert (H1 : 87 # 100 <= 1) by (apply Qle_bool_iff; reflexivity).
  split; [exact H0|]. split; [exact H1|].
  exact (confidence_chip_percent_in_range (87 # 100) H0 H1).
Defined.

Lemma process_button_posts_stored_files_witness :
  UploadForm.reachable sizeText afterDrop
  /\ exists req,
       Api.requestsOf
         (snd (step initialState
                 (Process (map UploadForm.file (UploadForm.files afterDrop))
                          (Some (UploadForm.options afterDrop)) 0)))
       = [req]
       /\ Api.getAll "files" (Api.body req)
          = map Api.FormFile (map UploadForm.file (UploadForm.files afterDrop)).
Proof.
  split; [exact upload_reachable_afterDrop|].
  destruct (process_button_posts_stored_files sizeText afterDrop initialState 0%Z
              upload_reachable_afterDrop) as [req (H1 & H2 & _)].
  exists req. split; [exact H1 | exact H2].
Defined.

End FurtherInstances.
